(** * big-ag-grid-lab: the data-access core and the client's request sequencer

    A shallow embedding of the Express server (count cache, [parseSort], the
    [/api/users] and [/api/users-cursor] handlers) and of [fetchData] in
    [web/src/App.tsx], with the properties the specification states of them.

    Conventions of the model:
    - JavaScript strings are byte strings ([string]); whitespace and letter
      case are the ASCII ones.
    - Integer-valued JavaScript numbers are [Z], kept exact; [Date.now()] is a
      [Z] that the environment supplies at each reading.
    - The table [users] is the list of its rows in rowid order; SQLite's
      [LIKE] is a parameter of the server's definitions.
    - The [Map] behind the count cache is a [gmap string CacheEntry]. *)

From Stdlib Require Import ZArith Ascii.
From stdpp Require Import gmap strings list sorting.

Local Open Scope Z_scope.

(** ** JavaScript string primitives used by the sources *)

Module Js.

(** [String.prototype.trim]: leading and trailing white space removed. *)
Fixpoint trimStart (s : string) : string :=
  match s with
  | String a s' => if Ascii.is_space a then trimStart s' else s
  | EmptyString => EmptyString
  end.

Definition trimEnd (s : string) : string :=
  String.rev (trimStart (String.rev s)).

Definition trim (s : string) : string := trimEnd (trimStart s).

(** [String.prototype.toLowerCase] on one byte: only [A]..[Z] move. *)
Definition lowerChar (a : ascii) : ascii :=
  let n := N_of_ascii a in
  if ((65 <=? n) && (n <=? 90))%N then ascii_of_N (n + 32) else a.

Fixpoint toLowerCase (s : string) : string :=
  match s with
  | String a s' => String (lowerChar a) (toLowerCase s')
  | EmptyString => EmptyString
  end.

(** [s.split(sep)] for a one-character separator: never the empty array. *)
Fixpoint split (sep : ascii) (s : string) : list string :=
  match s with
  | EmptyString => [EmptyString]
  | String c s' =>
      if Ascii.eqb c sep then EmptyString :: split sep s'
      else match split sep s' with
           | h :: t => String c h :: t
           | [] => [String c EmptyString]
           end
  end.

(** [x || d] where [x] is a string or [undefined]: the empty string and
    [undefined] are the falsy ones. *)
Definition or_else (x : option string) (d : string) : string :=
  match x with
  | Some (String a s) => String a s
  | Some EmptyString | None => d
  end.

(** Truthiness of a string-or-[undefined] value. *)
Definition truthy (x : option string) : bool :=
  match x with
  | Some (String _ _) => true
  | _ => false
  end.

End Js.

(** ** Count cache (server, [getCountCache] / [setCountCache]) *)

Record CacheEntry := { value : Z; expiresAt : Z }.

Definition COUNT_CACHE_TTL_MS : Z := 30000.

(** [getCountCache(key)], with the reading of [Date.now()] as [now]; the
    result is the returned value ([None] for [null]) and the map afterwards. *)
Definition getCountCache (now : Z) (key : string)
    (countCache : gmap string CacheEntry) : option Z * gmap string CacheEntry :=
  match countCache !! key with
  | None => (None, countCache)
  | Some hit =>
      if expiresAt hit <? now then (None, delete key countCache)
      else (Some (value hit), countCache)
  end.

(** [setCountCache(key, value)]. *)
Definition setCountCache (now : Z) (key : string) (v : Z)
    (countCache : gmap string CacheEntry) : gmap string CacheEntry :=
  <[key := {| value := v; expiresAt := now + COUNT_CACHE_TTL_MS |}]> countCache.

(** A run of later lookups [(now, key)], each on the map the previous one
    left; the values returned, in order. *)
Fixpoint getMany (reads : list (Z * string))
    (countCache : gmap string CacheEntry) : list (string * option Z) :=
  match reads with
  | [] => []
  | (now, k) :: rest =>
      let '(r, c') := getCountCache now k countCache in
      (k, r) :: getMany rest c'
  end.

(** ** Sort parsing (server, [parseSort]) *)

Record SortSpec := { field : string; dir : string }.

Definition allowed : list string := ["id"; "name"; "email"; "status"; "createdAt"].

Definition allowed_has (f : string) : bool := bool_decide (f ∈ allowed).

Definition parseSort (sortStr : option string) : SortSpec :=
  let parts := Js.split ":" (Js.or_else sortStr "") in
  let fieldRaw := parts !! 0%nat in
  let dirRaw := parts !! 1%nat in
  let field := Js.or_else fieldRaw "createdAt" in
  let dir :=
    if String.eqb (Js.toLowerCase (Js.or_else dirRaw "desc")) "asc"
    then "ASC" else "DESC" in
  {| field := if allowed_has field then field else "createdAt"; dir := dir |}.

(** ** JavaScript numbers as the handlers use them *)

(** A number that came out of [parseInt], [Math.max] or [Math.min]: an
    integer, an infinity or [NaN].  Integers are kept exact; the rounding of
    a double above 2^53 is not part of the model. *)
Inductive JsNum := JNaN | JInt (n : Z) | JPosInf | JNegInf.

Definition Number_isInteger (x : option JsNum) : bool :=
  match x with
  | Some (JInt _) => true
  | _ => false
  end.

Definition Math_max (a b : JsNum) : JsNum :=
  match a, b with
  | JNaN, _ | _, JNaN => JNaN
  | JPosInf, _ | _, JPosInf => JPosInf
  | JNegInf, y => y
  | x, JNegInf => x
  | JInt x, JInt y => JInt (Z.max x y)
  end.

Definition Math_min (a b : JsNum) : JsNum :=
  match a, b with
  | JNaN, _ | _, JNaN => JNaN
  | JNegInf, _ | _, JNegInf => JNegInf
  | JPosInf, y => y
  | x, JPosInf => x
  | JInt x, JInt y => JInt (Z.min x y)
  end.

Definition digitVal (a : ascii) : option Z :=
  let n := N_of_ascii a in
  if ((48 <=? n) && (n <=? 57))%N then Some (Z.of_N n - 48) else None.

(** The longest prefix of decimal digits, read as a number; [None] when the
    string does not start with a digit. *)
Fixpoint digitsFrom (acc : option Z) (s : string) : option Z :=
  match s with
  | String a s' =>
      match digitVal a with
      | Some d => digitsFrom (Some (10 * default 0 acc + d)) s'
      | None => acc
      end
  | EmptyString => acc
  end.

(** The least integer that a double rounds to [Infinity]. *)
Definition DOUBLE_OVERFLOW : Z := 2 ^ 1024 - 2 ^ 970.

(** [parseInt(s, 10)]: white space, an optional sign, then digits. *)
Definition parseInt (s : string) : JsNum :=
  let s1 := Js.trimStart s in
  let '(neg, s2) :=
    match s1 with
    | String "-" r => (true, r)
    | String "+" r => (false, r)
    | _ => (false, s1)
    end in
  match digitsFrom None s2 with
  | None => JNaN
  | Some n =>
      if DOUBLE_OVERFLOW <=? n then (if neg then JNegInf else JPosInf)
      else JInt (if neg then - n else n)
  end.

(** ** The [users] table and the statements the handlers prepare

    The database engine is not part of the repository.  Its model takes the
    SQL text and the bound parameters, the way [db.prepare(sql).all(params)]
    does: [prepare] recognises the statements this server can produce and
    gives each the meaning SQLite gives it. *)

Record UserRow := {
  id : Z;
  name : string;
  email : string;
  status : string;
  createdAt : string
}.

Global Instance UserRow_eq_dec : EqDecision UserRow.
Proof. solve_decision. Defined.

(** The object of named parameters handed to a statement. *)
Record Params := {
  p_status : option string;
  p_q : option string;
  p_limit : option JsNum;
  p_offset : option JsNum;
  p_cursorCreatedAt : option string;
  p_cursorId : option JsNum
}.

Definition noParams : Params :=
  {| p_status := None; p_q := None; p_limit := None; p_offset := None;
     p_cursorCreatedAt := None; p_cursorId := None |}.

(** What a statement throws. *)
Inductive DbError :=
  | SqlSyntaxError
  | MissingNamedParameter (pname : string)
  | DatatypeMismatch
  | WrongStatementKind.

(** The three [WHERE] terms the handlers push, the five columns and the two
    directions an [ORDER BY] term can name. *)
Inductive Cond := CondStatus | CondSearch | CondCursor.
Inductive Column := ColId | ColName | ColEmail | ColStatus | ColCreatedAt.
Inductive Direction := Asc | Desc.

Global Instance Cond_eq_dec : EqDecision Cond.
Proof. solve_decision. Defined.
Global Instance Column_eq_dec : EqDecision Column.
Proof. solve_decision. Defined.
Global Instance Direction_eq_dec : EqDecision Direction.
Proof. solve_decision. Defined.

(** A prepared statement: [SELECT COUNT] or [SELECT] of rows, its [WHERE]
    terms, its [ORDER BY] terms, and whether it has [LIMIT] and [OFFSET]. *)
Record Select := {
  sel_count : bool;
  sel_where : list Cond;
  sel_order : list (Column * Direction);
  sel_limit : bool;
  sel_offset : bool
}.

(** *** Recognising the SQL text

    The text is cut into words at white space; the words of a term are those
    of the string the handler pushes. *)

Definition condTokens (c : Cond) : list string :=
  match c with
  | CondStatus => ["status"; "="; "@status"]
  | CondSearch => ["(name"; "LIKE"; "@q"; "OR"; "email"; "LIKE"; "@q)"]
  | CondCursor =>
      ["("; "createdAt"; "<"; "@cursorCreatedAt"; "OR"; "(createdAt"; "=";
       "@cursorCreatedAt"; "AND"; "id"; "<"; "@cursorId)"; ")"]
  end.

Fixpoint stripTokens (pre toks : list string) : option (list string) :=
  match pre, toks with
  | [], _ => Some toks
  | p :: pre', t :: toks' => if String.eqb p t then stripTokens pre' toks' else None
  | _ :: _, [] => None
  end.

(** One [WHERE] term at the head of the words, and the words after it. *)
Definition parseCond (toks : list string) : option (Cond * list string) :=
  match stripTokens (condTokens CondStatus) toks with
  | Some r => Some (CondStatus, r)
  | None =>
      match stripTokens (condTokens CondSearch) toks with
      | Some r => Some (CondSearch, r)
      | None =>
          match stripTokens (condTokens CondCursor) toks with
          | Some r => Some (CondCursor, r)
          | None => None
          end
      end
  end.

(** Terms joined by [AND]; [fuel] bounds their number. *)
Fixpoint parseConds (fuel : nat) (toks : list string)
    : option (list Cond * list string) :=
  match fuel with
  | O => None
  | S fuel' =>
      match parseCond toks with
      | None => None
      | Some (c, "AND" :: r) =>
          match parseConds fuel' r with
          | Some (cs, r') => Some (c :: cs, r')
          | None => None
          end
      | Some (c, r) => Some ([c], r)
      end
  end.

Definition parseWhere (toks : list string) : option (list Cond * list string) :=
  match toks with
  | "WHERE" :: r => parseConds (S (length r)) r
  | _ => Some ([], toks)
  end.

Definition parseColumn (t : string) : option Column :=
  if String.eqb t "id" then Some ColId
  else if String.eqb t "name" then Some ColName
  else if String.eqb t "email" then Some ColEmail
  else if String.eqb t "status" then Some ColStatus
  else if String.eqb t "createdAt" then Some ColCreatedAt
  else None.

(** A direction token and whether a comma (one more sort term) follows it. *)
Definition parseDirection (t : string) : option (Direction * bool) :=
  if String.eqb t "ASC" then Some (Asc, false)
  else if String.eqb t "DESC" then Some (Desc, false)
  else if String.eqb t "ASC," then Some (Asc, true)
  else if String.eqb t "DESC," then Some (Desc, true)
  else None.

Fixpoint parseOrderTerms (fuel : nat) (toks : list string)
    : option (list (Column * Direction) * list string) :=
  match fuel, toks with
  | S fuel', c :: d :: r =>
      match parseColumn c, parseDirection d with
      | Some col, Some (dr, false) => Some ([(col, dr)], r)
      | Some col, Some (dr, true) =>
          match parseOrderTerms fuel' r with
          | Some (os, r') => Some ((col, dr) :: os, r')
          | None => None
          end
      | _, _ => None
      end
  | _, _ => None
  end.

Definition selectRowsTokens : list string :=
  ["SELECT"; "id,"; "name,"; "email,"; "status,"; "createdAt"; "FROM"; "users"].

Definition selectCountTokens : list string :=
  ["SELECT"; "COUNT(*)"; "as"; "totalCount"; "FROM"; "users"].

(** [db.prepare(sql)]: [None] when the text is not one of the server's
    statements (the engine reports a syntax error, or an unknown column). *)
Definition prepare (sql : string) : option Select :=
  let toks := String.words sql in
  match stripTokens selectCountTokens toks with
  | Some r =>
      match parseWhere r with
      | Some (cs, []) =>
          Some {| sel_count := true; sel_where := cs; sel_order := [];
                  sel_limit := false; sel_offset := false |}
      | _ => None
      end
  | None =>
      match stripTokens selectRowsTokens toks with
      | None => None
      | Some r =>
          match parseWhere r with
          | Some (cs, "ORDER" :: "BY" :: r1) =>
              match parseOrderTerms (length r1) r1 with
              | Some (os, ["LIMIT"; "@limit"]) =>
                  Some {| sel_count := false; sel_where := cs; sel_order := os;
                          sel_limit := true; sel_offset := false |}
              | Some (os, ["LIMIT"; "@limit"; "OFFSET"; "@offset"]) =>
                  Some {| sel_count := false; sel_where := cs; sel_order := os;
                          sel_limit := true; sel_offset := true |}
              | _ => None
              end
          | _ => None
          end
      end
  end.

(** *** Row order *)

Definition colCompare (c : Column) (x y : UserRow) : comparison :=
  match c with
  | ColId => Z.compare (id x) (id y)
  | ColName => String.compare (name x) (name y)
  | ColEmail => String.compare (email x) (email y)
  | ColStatus => String.compare (status x) (status y)
  | ColCreatedAt => String.compare (createdAt x) (createdAt y)
  end.

Definition termCompare (t : Column * Direction) (x y : UserRow) : comparison :=
  match snd t with
  | Asc => colCompare (fst t) x y
  | Desc => colCompare (fst t) y x
  end.

(** [ORDER BY t1, t2, ...]: the first term that tells the rows apart decides. *)
Fixpoint orderCompare (os : list (Column * Direction)) (x y : UserRow) : comparison :=
  match os with
  | [] => Eq
  | t :: os' =>
      match termCompare t x y with
      | Eq => orderCompare os' x y
      | ne => ne
      end
  end.

Definition orderLe (os : list (Column * Direction)) (x y : UserRow) : Prop :=
  orderCompare os x y ≠ Gt.

Global Instance orderLe_dec os : RelDecision (orderLe os).
Proof. intros x y. unfold orderLe. apply _. Defined.

(** [LIMIT n] (a negative [n] is no limit) and [OFFSET n]. *)
Definition sqlLimit {A} (n : Z) (l : list A) : list A :=
  if n <? 0 then l else take (Z.to_nat n) l.

Definition sqlOffset {A} (n : Z) (l : list A) : list A := drop (Z.to_nat n) l.

(** An integer bound to [LIMIT] or [OFFSET].  [NaN] is bound as [NULL], which
    SQLite refuses there with a datatype mismatch. *)
Definition bindInteger (pname : string) (v : option JsNum) : DbError + Z :=
  match v with
  | None => inl (MissingNamedParameter pname)
  | Some (JInt n) => inr n
  | Some _ => inl DatatypeMismatch
  end.

Section Engine.

(** SQLite's [text LIKE pattern], as [like pattern text]. *)
Variable like : string → string → bool.

(** One [WHERE] term with its parameters bound: a test on rows. *)
Definition bindCond (p : Params) (c : Cond) : DbError + (UserRow → bool) :=
  match c with
  | CondStatus =>
      match p_status p with
      | None => inl (MissingNamedParameter "status")
      | Some s => inr (λ r, String.eqb (status r) s)
      end
  | CondSearch =>
      match p_q p with
      | None => inl (MissingNamedParameter "q")
      | Some q => inr (λ r, like q (name r) || like q (email r))
      end
  | CondCursor =>
      match p_cursorCreatedAt p, p_cursorId p with
      | None, _ => inl (MissingNamedParameter "cursorCreatedAt")
      | _, None => inl (MissingNamedParameter "cursorId")
      | Some c, Some (JInt i) =>
          inr (λ r, String.ltb (createdAt r) c
                    || (String.eqb (createdAt r) c && (id r <? i)))
      | Some _, Some _ => inl DatatypeMismatch
      end
  end.

Fixpoint bindConds (p : Params) (cs : list Cond) : DbError + (UserRow → bool) :=
  match cs with
  | [] => inr (λ _, true)
  | c :: cs' =>
      match bindCond p c, bindConds p cs' with
      | inl e, _ => inl e
      | _, inl e => inl e
      | inr f, inr g => inr (λ r, f r && g r)
      end
  end.

(** The rows a statement yields before [LIMIT]/[OFFSET]: the table in rowid
    order, filtered, then ordered.  Among rows the [ORDER BY] terms do not
    tell apart the engine is free to choose; what matters below is that the
    choice is a function of the table and the statement, not of the window
    asked for, and [merge_sort] stands for it. *)
Definition orderedMatches (db : list UserRow) (sel : Select)
    (test : UserRow → bool) : list UserRow :=
  merge_sort (orderLe (sel_order sel)) (List.filter test db).

(** [stmt.all(params)] for a row statement. *)
Definition stmtAll (db : list UserRow) (sel : Select) (p : Params)
    : DbError + list UserRow :=
  match bindConds p (sel_where sel) with
  | inl e => inl e
  | inr test =>
      let sorted := orderedMatches db sel test in
      match (if sel_limit sel then bindInteger "limit" (p_limit p) else inr (-1)) with
      | inl e => inl e
      | inr lim =>
          match (if sel_offset sel then bindInteger "offset" (p_offset p) else inr 0) with
          | inl e => inl e
          | inr off => inr (sqlLimit lim (sqlOffset off sorted))
          end
      end
  end.

(** [stmt.get(params).totalCount] for a count statement. *)
Definition stmtCount (db : list UserRow) (sel : Select) (p : Params)
    : DbError + Z :=
  match bindConds p (sel_where sel) with
  | inl e => inl e
  | inr test => inr (Z.of_nat (length (List.filter test db)))
  end.

(** [db.prepare(sql).all(params)]. *)
Definition queryAll (db : list UserRow) (sql : string) (p : Params)
    : DbError + list UserRow :=
  match prepare sql with
  | Some sel => if sel_count sel then inl WrongStatementKind else stmtAll db sel p
  | None => inl SqlSyntaxError
  end.

(** [db.prepare(sql).get(params).totalCount]. *)
Definition queryCount (db : list UserRow) (sql : string) (p : Params)
    : DbError + Z :=
  match prepare sql with
  | Some sel => if sel_count sel then stmtCount db sel p else inl WrongStatementKind
  | None => inl SqlSyntaxError
  end.

End Engine.

(** ** [JSON.stringify] of the cache key *)

Module Json.

Definition dq : ascii := "034"%char.
Definition bs : ascii := "092"%char.

Definition hexDigit (n : N) : ascii :=
  if (n <? 10)%N then ascii_of_N (48 + n) else ascii_of_N (87 + n).

(** One character of a string, as [JSON.stringify] writes it. *)
Definition escapeChar (a : ascii) : string :=
  let n := N_of_ascii a in
  if Ascii.eqb a dq then String bs (String dq EmptyString)
  else if Ascii.eqb a bs then String bs (String bs EmptyString)
  else if (n =? 8)%N then String bs "b"
  else if (n =? 12)%N then String bs "f"
  else if (n =? 10)%N then String bs "n"
  else if (n =? 13)%N then String bs "r"
  else if (n =? 9)%N then String bs "t"
  else if (n <? 32)%N then
    String bs (String "u" (String "0" (String "0"
      (String (hexDigit (n / 16)) (String (hexDigit (n mod 16)) EmptyString)))))
  else String a EmptyString.

Fixpoint escape (s : string) : string :=
  match s with
  | String a s' => escapeChar a +:+ escape s'
  | EmptyString => EmptyString
  end.

Definition quote (s : string) : string :=
  String dq (escape s +:+ String dq EmptyString).

(** A string or [null]. *)
Definition nullable (o : option string) : string :=
  match o with
  | Some s => quote s
  | None => "null"
  end.

(** ["k":] *)
Definition member (k : string) : string := quote k +:+ ":".

End Json.

(** ** [GET /api/users]: offset pagination with the cached count *)

(** [z.enum(["ACTIVE", "INACTIVE"])] *)
Inductive Status := ACTIVE | INACTIVE.

Definition statusStr (st : Status) : string :=
  match st with
  | ACTIVE => "ACTIVE"
  | INACTIVE => "INACTIVE"
  end.

(** [parsed.data]: the query after [QuerySchema] accepted it. *)
Record UsersQuery := {
  q_page : Z;
  q_pageSize : Z;
  q_search : string;
  q_status : option Status;
  q_sort : string
}.

Record Normalized := { n_status : option string; n_search : option string }.

Record RequestEcho := {
  rq_page : Z;
  rq_pageSize : Z;
  rq_sort : string;
  rq_status : option string;
  rq_search : string
}.

Record Meta := {
  queryTimeMs : Z;
  countTimeMs : Z;
  countCacheTtlMs : Z;
  countFromCache : bool;
  m_page : Z;
  m_pageSize : Z;
  m_sort : string;
  m_status : option string;
  m_search : string
}.

Record ApiRes := {
  res_rows : list UserRow;
  res_totalCount : Z;
  res_request : RequestEcho;
  res_meta : Meta
}.

(** The readings of [Date.now()] during one request, in program order. *)
Record Clock := { t0 : Z; t1 : Z; tGet : Z; tSet : Z; t2 : Z }.

(** [where.length ? `WHERE ${where.join(" AND ")}` : ""] *)
Definition whereSqlOf (where_ : list string) : string :=
  match where_ with
  | [] => EmptyString
  | _ => "WHERE " +:+ String.concat " AND " where_
  end.

(** [search && search.trim().length > 0] *)
Definition searchGiven (search : string) : bool :=
  negb (String.eqb search EmptyString) && bool_decide (0 < String.length (Js.trim search))%nat.

(** The [where] array and the [params] object of the handler. *)
Definition usersWhere (q : UsersQuery) : list string * Params :=
  let where_ : list string := [] in
  let params := noParams in
  let '(where_, params) :=
    match q_status q with
    | Some st =>
        (where_ ++ ["status = @status"],
         {| p_status := Some (statusStr st); p_q := p_q params;
            p_limit := p_limit params; p_offset := p_offset params;
            p_cursorCreatedAt := p_cursorCreatedAt params;
            p_cursorId := p_cursorId params |})
    | None => (where_, params)
    end in
  if searchGiven (q_search q) then
    (where_ ++ ["(name LIKE @q OR email LIKE @q)"],
     {| p_status := p_status params;
        p_q := Some ("%" +:+ Js.trim (q_search q) +:+ "%");
        p_limit := p_limit params; p_offset := p_offset params;
        p_cursorCreatedAt := p_cursorCreatedAt params;
        p_cursorId := p_cursorId params |})
  else (where_, params).

Definition usersWhereSql (q : UsersQuery) : string := whereSqlOf (fst (usersWhere q)).

(** [(page - 1) * pageSize] *)
Definition offsetOf (q : UsersQuery) : Z := (q_page q - 1) * q_pageSize q.

(** [{ status: status ?? null, search: ... ? search.trim() : null }] *)
Definition normalized (q : UsersQuery) : Normalized :=
  {| n_status := statusStr <$> q_status q;
     n_search := if searchGiven (q_search q) then Some (Js.trim (q_search q)) else None |}.

(** The template literals handed to [db.prepare]. *)
Definition rowsSql (whereSql field dir : string) : string :=
  "
    SELECT id, name, email, status, createdAt
    FROM users
    " +:+ whereSql +:+ "
    ORDER BY " +:+ field +:+ " " +:+ dir +:+ "
    LIMIT @limit OFFSET @offset
  ".

Definition countSql (whereSql : string) : string :=
  "
      SELECT COUNT(*) as totalCount
      FROM users
      " +:+ whereSql +:+ "
    ".

(** [JSON.stringify({ whereSql, normalized })] *)
Definition countCacheKeyOf (whereSql : string) (n : Normalized) : string :=
  "{" +:+ Json.member "whereSql" +:+ Json.quote whereSql +:+ ","
      +:+ Json.member "normalized" +:+ "{"
      +:+ Json.member "status" +:+ Json.nullable (n_status n) +:+ ","
      +:+ Json.member "search" +:+ Json.nullable (n_search n) +:+ "}}".

Definition countCacheKey (q : UsersQuery) : string :=
  countCacheKeyOf (usersWhereSql q) (normalized q).

(** The statement text and the parameters of the row query of a request. *)
Definition usersRowsSql (q : UsersQuery) : string :=
  let s := parseSort (Some (q_sort q)) in
  rowsSql (usersWhereSql q) (field s) (dir s).

(** [{ ...params, limit: pageSize, offset }] *)
Definition usersRowsParams (q : UsersQuery) : Params :=
  let params := snd (usersWhere q) in
  {| p_status := p_status params; p_q := p_q params;
     p_limit := Some (JInt (q_pageSize q));
     p_offset := Some (JInt (offsetOf q));
     p_cursorCreatedAt := p_cursorCreatedAt params;
     p_cursorId := p_cursorId params |}.

Section UsersHandler.

Variable like : string → string → bool.

(** The body of [res.json]. *)
Definition usersResponse (q : UsersQuery) (clock : Clock)
    (rows : list UserRow) (totalCount : Z) (fromCache : bool) : ApiRes :=
  let s := parseSort (Some (q_sort q)) in
  {| res_rows := rows;
     res_totalCount := totalCount;
     res_request :=
       {| rq_page := q_page q; rq_pageSize := q_pageSize q; rq_sort := q_sort q;
          rq_status := statusStr <$> q_status q; rq_search := q_search q |};
     res_meta :=
       {| queryTimeMs := t1 clock - t0 clock;
          countTimeMs := t2 clock - t1 clock;
          countFromCache := fromCache;
          countCacheTtlMs := COUNT_CACHE_TTL_MS;
          m_page := q_page q; m_pageSize := q_pageSize q;
          m_sort := field s +:+ ":" +:+ Js.toLowerCase (dir s);
          m_status := statusStr <$> q_status q; m_search := q_search q |} |}.

(** The handler after validation: the JSON body sent (or the error the
    statement threw) and the count cache afterwards. *)
Definition usersHandler (db : list UserRow) (clock : Clock)
    (countCache : gmap string CacheEntry) (q : UsersQuery)
    : (DbError + ApiRes) * gmap string CacheEntry :=
  let params := snd (usersWhere q) in
  let whereSql := usersWhereSql q in
  match queryAll like db (usersRowsSql q) (usersRowsParams q) with
  | inl e => (inl e, countCache)
  | inr rows =>
      let key := countCacheKey q in
      let '(cached, countCache) := getCountCache (tGet clock) key countCache in
      match cached with
      | Some totalCount =>
          (inr (usersResponse q clock rows totalCount true), countCache)
      | None =>
          match queryCount like db (countSql whereSql) params with
          | inl e => (inl e, countCache)
          | inr totalCount =>
              (inr (usersResponse q clock rows totalCount false),
               setCountCache (tSet clock) key totalCount countCache)
          end
      end
  end.

End UsersHandler.

(** ** [GET /api/users-cursor]: keyset pagination *)

(** [req.query]: each field is a string when the URL carries it (a field
    given several times, which Express hands over as an array, is left
    out). *)
Record CursorQuery := {
  cq_pageSize : option string;
  cq_search : option string;
  cq_status : option string;
  cq_cursorCreatedAt : option string;
  cq_cursorId : option string
}.

Record NextCursor := { nc_cursorCreatedAt : string; nc_cursorId : Z }.

Record UsedCursor := { uc_cursorCreatedAt : string; uc_cursorId : option JsNum }.

Record CursorMeta := {
  cm_queryTimeMs : Z;
  cm_pageSize : JsNum;
  cm_status : option string;
  cm_search : string;
  usedCursor : option UsedCursor
}.

Record CursorRes := {
  cr_rows : list UserRow;
  nextCursor : option NextCursor;
  cr_meta : CursorMeta
}.

(** [Math.min(Math.max(parseInt(req.query.pageSize || "100", 10), 1), 10000)] *)
Definition cursorPageSize (q : CursorQuery) : JsNum :=
  Math_min (Math_max (parseInt (Js.or_else (cq_pageSize q) "100")) (JInt 1)) (JInt 10000).

(** [(req.query.search || "").toString().trim()] *)
Definition cursorSearch (q : CursorQuery) : string :=
  Js.trim (Js.or_else (cq_search q) EmptyString).

(** [req.query.x ? req.query.x.toString() : null] *)
Definition orNull (x : option string) : option string :=
  if Js.truthy x then x else None.

(** [req.query.cursorId ? parseInt(req.query.cursorId.toString(), 10) : null] *)
Definition cursorIdOf (q : CursorQuery) : option JsNum :=
  match orNull (cq_cursorId q) with
  | Some s => Some (parseInt s)
  | None => None
  end.

Definition cursorCreatedAtOf (q : CursorQuery) : option string :=
  orNull (cq_cursorCreatedAt q).

Definition cursorCond : string :=
  "
      (
        createdAt < @cursorCreatedAt
        OR (createdAt = @cursorCreatedAt AND id < @cursorId)
      )
    ".

(** [cursorCreatedAt && Number.isInteger(cursorId)] *)
Definition cursorComplete (q : CursorQuery) : bool :=
  Js.truthy (cursorCreatedAtOf q) && Number_isInteger (cursorIdOf q).

(** The [where] array and the [params] object of the handler. *)
Definition cursorWhere (q : CursorQuery) : list string * Params :=
  let pageSize := cursorPageSize q in
  let search := cursorSearch q in
  let status := orNull (cq_status q) in
  let where_ : list string := [] in
  let params :=
    {| p_status := None; p_q := None; p_limit := Some pageSize; p_offset := None;
       p_cursorCreatedAt := None; p_cursorId := None |} in
  let '(where_, params) :=
    if bool_decide (status = Some "ACTIVE") || bool_decide (status = Some "INACTIVE") then
      (where_ ++ ["status = @status"],
       {| p_status := status; p_q := p_q params;
          p_limit := p_limit params; p_offset := p_offset params;
          p_cursorCreatedAt := p_cursorCreatedAt params;
          p_cursorId := p_cursorId params |})
    else (where_, params) in
  let '(where_, params) :=
    if bool_decide (0 < String.length search)%nat then
      (where_ ++ ["(name LIKE @q OR email LIKE @q)"],
       {| p_status := p_status params; p_q := Some ("%" +:+ search +:+ "%");
          p_limit := p_limit params; p_offset := p_offset params;
          p_cursorCreatedAt := p_cursorCreatedAt params;
          p_cursorId := p_cursorId params |})
    else (where_, params) in
  if cursorComplete q then
    (where_ ++ [cursorCond],
     {| p_status := p_status params; p_q := p_q params;
        p_limit := p_limit params; p_offset := p_offset params;
        p_cursorCreatedAt := cursorCreatedAtOf q;
        p_cursorId := cursorIdOf q |})
  else (where_, params).

Definition cursorRowsSql (whereSql : string) : string :=
  "
    SELECT id, name, email, status, createdAt
    FROM users
    " +:+ whereSql +:+ "
    ORDER BY createdAt DESC, id DESC
    LIMIT @limit
  ".

(** The body of [res.json] for the rows read; [last] is the last of them,
    or [null]. *)
Definition cursorResponse (q : CursorQuery) (t0 t1 : Z) (rows : list UserRow)
    : CursorRes :=
  {| cr_rows := rows;
     nextCursor :=
       match last rows with
       | Some l => Some {| nc_cursorCreatedAt := createdAt l; nc_cursorId := id l |}
       | None => None
       end;
     cr_meta :=
       {| cm_queryTimeMs := t1 - t0;
          cm_pageSize := cursorPageSize q;
          cm_status := orNull (cq_status q);
          cm_search := cursorSearch q;
          usedCursor :=
            match cursorCreatedAtOf q with
            | Some c => Some {| uc_cursorCreatedAt := c; uc_cursorId := cursorIdOf q |}
            | None => None
            end |} |}.

Section CursorHandler.

Variable like : string → string → bool.

(** The handler: the JSON body sent, or the error the statement threw. *)
Definition cursorHandler (db : list UserRow) (t0 t1 : Z) (q : CursorQuery)
    : DbError + CursorRes :=
  let '(where_, params) := cursorWhere q in
  let whereSql := whereSqlOf where_ in
  match queryAll like db (cursorRowsSql whereSql) params with
  | inl e => inl e
  | inr rows => inr (cursorResponse q t0 t1 rows)
  end.

End CursorHandler.

(** ** A reference [LIKE]

    SQLite's default operator on byte strings: [%] is any run of characters,
    [_] is one character, letters compare without regard to ASCII case. *)

Fixpoint likeChars (pat text : list ascii) : bool :=
  match pat with
  | [] => match text with [] => true | _ => false end
  | p :: pat' =>
      if Ascii.eqb p "%" then
        (fix star (t : list ascii) : bool :=
           likeChars pat' t ||
           match t with
           | [] => false
           | _ :: t' => star t'
           end) text
      else
        match text with
        | [] => false
        | c :: text' =>
            (Ascii.eqb p "_" || Ascii.eqb (Js.lowerChar p) (Js.lowerChar c))
            && likeChars pat' text'
        end
  end.

Definition sqliteLike (pat text : string) : bool :=
  likeChars (String.list_ascii_of_string pat) (String.list_ascii_of_string text).

(** ** The client: [fetchData] in [App.tsx]

    [fetchData] runs in two stretches.  [fetchData_begin] is the code up to the
    [await]: it aborts the previous controller, installs a new one and takes
    the next request id.  [fetchData_settle] is the code after the [await]s,
    run when the network call of that invocation has resolved or rejected;
    other invocations may have begun or settled in between. *)

(** What a rejected [fetch] or [res.json()] throws; [e_name] is [e?.name]. *)
Record FetchError := { e_name : option string; e_message : string }.

Inductive Outcome :=
  | Resolved (json : ApiRes)
  | Rejected (e : FetchError).

(** The component state that [fetchData] writes. *)
Record Ui := {
  rows : list UserRow;
  totalCount : Z;
  apiResRequest : option RequestEcho;
  meta : option Meta;
  fetchTotalLog : string
}.

(** The calls [fetchData] makes to React setters and to the console. *)
Inductive Call :=
  | SetRows (r : list UserRow)
  | SetTotalCount (n : Z)
  | SetApiResRequest (r : RequestEcho)
  | SetMeta (m : Meta)
  | SetFetchTotalLog (s : string)
  | ConsoleLog (s : string) (m : Meta)
  | ConsoleError (e : FetchError).

Record Client := {
  ui : Ui;
  reqIdRef : Z;
  (** [abortRef.current]: the index of a controller, or [null]. *)
  abortRef : option nat;
  (** Every [AbortController] made so far, with its [signal.aborted]. *)
  controllers : list bool;
  calls : list Call
}.

Definition initialUi : Ui :=
  {| rows := []; totalCount := 0; apiResRequest := None; meta := None;
     fetchTotalLog := EmptyString |}.

Definition initialClient : Client :=
  {| ui := initialUi; reqIdRef := 0; abortRef := None; controllers := []; calls := [] |}.

(** What one invocation keeps in its closure across the [await]. *)
Record Ticket := { myReqId : Z; controller : nat }.

Definition fetchData_begin (st : Client) : Client * Ticket :=
  (* abortRef.current?.abort() *)
  let ctrls :=
    match abortRef st with
    | Some c => <[c := true]> (controllers st)
    | None => controllers st
    end in
  (* const controller = new AbortController(); abortRef.current = controller *)
  let controller := length ctrls in
  let ctrls := ctrls ++ [false] in
  (* const myReqId = ++reqIdRef.current *)
  let myReqId := reqIdRef st + 1 in
  ({| ui := ui st; reqIdRef := myReqId; abortRef := Some controller;
      controllers := ctrls; calls := calls st |},
   {| myReqId := myReqId; controller := controller |}).

(** The setter calls of an applied response; [elapsed] is
    [(t1 - t0).toFixed(1)]. *)
Definition applyCalls (json : ApiRes) (elapsed : string) : list Call :=
  [ SetRows (res_rows json);
    SetTotalCount (res_totalCount json);
    SetApiResRequest (res_request json);
    SetMeta (res_meta json);
    SetFetchTotalLog elapsed;
    ConsoleLog elapsed (res_meta json) ].

Definition applied (json : ApiRes) (elapsed : string) (st : Client) : Client :=
  {| ui := {| rows := res_rows json;
              totalCount := res_totalCount json;
              apiResRequest := Some (res_request json);
              meta := Some (res_meta json);
              fetchTotalLog := elapsed |};
     reqIdRef := reqIdRef st; abortRef := abortRef st;
     controllers := controllers st;
     calls := calls st ++ applyCalls json elapsed |}.

(** The [try] block after the [await]s: [inl e] when [e] is thrown. *)
Definition tryBlock (myReqId : Z) (o : Outcome) (elapsed : string) (st : Client)
    : FetchError + Client :=
  match o with
  | Rejected e => inl e
  | Resolved json =>
      if bool_decide (myReqId ≠ reqIdRef st) then inr st
      else inr (applied json elapsed st)
  end.

(** [console.error(e)] *)
Definition console_error (e : FetchError) (st : Client) : Client :=
  {| ui := ui st; reqIdRef := reqIdRef st; abortRef := abortRef st;
     controllers := controllers st;
     calls := calls st ++ [ConsoleError e] |}.

(** The [catch] block. *)
Definition catchBlock (e : FetchError) (st : Client) : FetchError + Client :=
  if bool_decide (e_name e = Some "AbortError") then inr st
  else inr (console_error e st).

(** The rest of [fetchData] once its network call has settled: [inr] when the
    promise [fetchData] returned is fulfilled, [inl e] when it is rejected
    with [e]. *)
Definition fetchData_settle (myReqId : Z) (o : Outcome) (elapsed : string)
    (st : Client) : FetchError + Client :=
  match tryBlock myReqId o elapsed st with
  | inr st' => inr st'
  | inl e => catchBlock e st
  end.

(** What happens to the client, in order: an invocation begins, or the
    network call of the invocation with request id [Settle]'s first argument
    settles. *)
Inductive Event :=
  | Dispatch
  | Settle (myReqId : Z) (o : Outcome) (elapsed : string).

Definition step (st : Client) (ev : Event) : Client :=
  match ev with
  | Dispatch => fst (fetchData_begin st)
  | Settle t o elapsed =>
      match fetchData_settle t o elapsed st with
      | inr st' => st'
      | inl _ => st
      end
  end.

Definition run (evs : list Event) (st : Client) : Client := foldl step st evs.

(** The request ids handed out during a run, oldest first. *)
Fixpoint issued (evs : list Event) (st : Client) : list Z :=
  match evs with
  | [] => []
  | Dispatch :: evs' =>
      let '(st', tk) := fetchData_begin st in myReqId tk :: issued evs' st'
  | ev :: evs' => issued evs' (step st ev)
  end.

(** The highest of them (0 when none was issued). *)
Definition highestIssued (evs : list Event) (st : Client) : Z :=
  foldr Z.max 0 (issued evs st).

(** ** Vocabulary of the statements below *)

Fixpoint contains (c : ascii) (s : string) : bool :=
  match s with
  | String a s' => Ascii.eqb a c || contains c s'
  | EmptyString => false
  end.

(** The spellings of [asc] in either letter case. *)
Definition ascSpellings : list string :=
  ["asc"; "asC"; "aSc"; "aSC"; "Asc"; "AsC"; "ASc"; "ASC"].

(** A rejection that is not a cancellation. *)
Definition networkError : FetchError :=
  {| e_name := Some "TypeError"; e_message := "Failed to fetch" |}.

(** A three-way comparison that orders its arguments. *)
Class CmpOrder {A} (cmp : A → A → comparison) := {
  cmp_antisym : ∀ x y, cmp x y = CompOpp (cmp y x);
  cmp_lt_trans : ∀ x y z, cmp x y = Lt → cmp y z = Lt → cmp x z = Lt;
  cmp_eq_l : ∀ x y z, cmp x y = Eq → cmp x z = cmp y z
}.

Global Arguments cmp_antisym {A} cmp {_} x y.
Global Arguments cmp_lt_trans {A} cmp {_} x y z.
Global Arguments cmp_eq_l {A} cmp {_} x y z.

(** The [WHERE] terms of a [/api/users] request. *)
Definition usersConds (q : UsersQuery) : list Cond :=
  match q_status q with Some _ => [CondStatus] | None => [] end
  ++ (if searchGiven (q_search q) then [CondSearch] else []).

Definition columnOf (f : string) : Column :=
  default ColCreatedAt (parseColumn f).

Definition directionOf (d : string) : Direction :=
  if String.eqb d "ASC" then Asc else Desc.

(** The rows a [/api/users] request selects, as a test on one row. *)
Definition usersMatches (like : string → string → bool) (q : UsersQuery)
    (r : UserRow) : bool :=
  match q_status q with
  | Some st => String.eqb (status r) (statusStr st)
  | None => true
  end
  && (if searchGiven (q_search q)
      then like ("%" +:+ Js.trim (q_search q) +:+ "%") (name r)
           || like ("%" +:+ Js.trim (q_search q) +:+ "%") (email r)
      else true).

(** The one [ORDER BY] term of a [/api/users] request. *)
Definition usersOrder (q : UsersQuery) : list (Column * Direction) :=
  [(columnOf (field (parseSort (Some (q_sort q)))),
    directionOf (dir (parseSort (Some (q_sort q)))))].

(** The same request for another page. *)
Definition withPage (p : Z) (q : UsersQuery) : UsersQuery :=
  {| q_page := p; q_pageSize := q_pageSize q; q_search := q_search q;
     q_status := q_status q; q_sort := q_sort q |}.

(** The [status] a [/api/users-cursor] request filters on, if any: the
    handler's guard [status === "ACTIVE" || status === "INACTIVE"]. *)
Definition cursorStatusFilter (q : CursorQuery) : option string :=
  let status := orNull (cq_status q) in
  if bool_decide (status = Some "ACTIVE") || bool_decide (status = Some "INACTIVE")
  then status else None.

(** [search.length > 0] *)
Definition cursorSearchGiven (q : CursorQuery) : bool :=
  bool_decide (0 < String.length (cursorSearch q))%nat.







Definition keysetTerms : list (Column * Direction) :=
  [(ColCreatedAt, Desc); (ColId, Desc)].

(** The same request without its cursor fields. *)
Definition withoutCursor (q : CursorQuery) : CursorQuery :=
  {| cq_pageSize := cq_pageSize q; cq_search := cq_search q;
     cq_status := cq_status q; cq_cursorCreatedAt := None; cq_cursorId := None |}.

(** The rows of an answer, or the error thrown instead. *)
Definition rowsOf (res : DbError + CursorRes) : DbError + list UserRow :=
  match res with
  | inl e => inl e
  | inr r => inr (cr_rows r)
  end.

(** The [where] array of the keyset handler, by which terms are present. *)
Definition cursorWhereStrings (b1 b2 b3 : bool) : list string :=
  (if b1 then ["status = @status"] else [])
  ++ (if b2 then ["(name LIKE @q OR email LIKE @q)"] else [])
  ++ (if b3 then [cursorCond] else []).

Definition cursorConds (b1 b2 b3 : bool) : list Cond :=
  (if b1 then [CondStatus] else [])
  ++ (if b2 then [CondSearch] else [])
  ++ (if b3 then [CondCursor] else []).

(** The tests the [WHERE] terms of a keyset request stand for. *)
Definition cursorFilterTest (like : string → string → bool) (q : CursorQuery)
    (r : UserRow) : bool :=
  match cursorStatusFilter q with
  | Some s => String.eqb (status r) s
  | None => true
  end
  && (if cursorSearchGiven q
      then like ("%" +:+ cursorSearch q +:+ "%") (name r)
           || like ("%" +:+ cursorSearch q +:+ "%") (email r)
      else true).

Definition belowCursor (c : string) (i : Z) (r : UserRow) : bool :=
  String.ltb (createdAt r) c || (String.eqb (createdAt r) c && (id r <? i)).

Definition cursorTest (like : string → string → bool) (q : CursorQuery)
    (r : UserRow) : bool :=
  cursorFilterTest like q r
  && match cursorComplete q, cursorCreatedAtOf q, cursorIdOf q with
     | true, Some c, Some (JInt i) => belowCursor c i r
     | _, _, _ => true
     end.


(** ** Sample data for the worked instances *)

Definition sampleDb : list UserRow :=
  [ {| id := 1; name := "User 1"; email := "user1@example.com";
       status := "INACTIVE"; createdAt := "2026-02-01T00:03:00.000Z" |};
    {| id := 2; name := "User 2"; email := "user2@example.com";
       status := "ACTIVE"; createdAt := "2026-02-01T00:02:00.000Z" |};
    {| id := 3; name := "User 3"; email := "user3@example.com";
       status := "INACTIVE"; createdAt := "2026-02-01T00:02:00.000Z" |};
    {| id := 4; name := "User 4"; email := "user4@example.com";
       status := "ACTIVE"; createdAt := "2026-02-01T00:01:00.000Z" |} ].

Definition sampleClock : Clock := {| t0 := 0; t1 := 1; tGet := 2; tSet := 3; t2 := 4 |}.

Definition sampleUsersQuery : UsersQuery :=
  {| q_page := 1; q_pageSize := 2; q_search := " user "; q_status := None;
     q_sort := "id:asc" |}.

(** A cursor on row 3, and the same request with the id left out. *)
Definition sampleCursorQuery : CursorQuery :=
  {| cq_pageSize := Some "2"; cq_search := None; cq_status := None;
     cq_cursorCreatedAt := Some "2026-02-01T00:02:00.000Z"; cq_cursorId := Some "3" |}.

Definition samplePartialQuery : CursorQuery :=
  {| cq_pageSize := Some "2"; cq_search := None; cq_status := None;
     cq_cursorCreatedAt := Some "2026-02-01T00:02:00.000Z"; cq_cursorId := None |}.

(** ** Reading a cache key back

    A reader for the text [countCacheKeyOf] writes; it is used to show that
    the key determines the filter. *)

Definition hexVal (a : ascii) : option N :=
  let n := N_of_ascii a in
  if ((48 <=? n) && (n <=? 57))%N then Some (n - 48)%N
  else if ((97 <=? n) && (n <=? 102))%N then Some (n - 87)%N
  else None.

Definition consTo (c : ascii) (o : option (string * string)) : option (string * string) :=
  match o with
  | Some (t, r) => Some (String c t, r)
  | None => None
  end.

(** The characters of a JSON string up to its closing quote, and the text
    after that quote. *)
Fixpoint readString (s : string) : option (string * string) :=
  match s with
  | EmptyString => None
  | String a s1 =>
      if Ascii.eqb a Json.dq then Some (EmptyString, s1)
      else if Ascii.eqb a Json.bs then
        match s1 with
        | EmptyString => None
        | String b s2 =>
            if Ascii.eqb b Json.dq then consTo Json.dq (readString s2)
            else if Ascii.eqb b Json.bs then consTo Json.bs (readString s2)
            else if Ascii.eqb b "b" then consTo "008" (readString s2)
            else if Ascii.eqb b "f" then consTo "012" (readString s2)
            else if Ascii.eqb b "n" then consTo "010" (readString s2)
            else if Ascii.eqb b "r" then consTo "013" (readString s2)
            else if Ascii.eqb b "t" then consTo "009" (readString s2)
            else if Ascii.eqb b "u" then
              match s2 with
              | String "0" (String "0" (String h1 (String h2 s3))) =>
                  match hexVal h1, hexVal h2 with
                  | Some x, Some y => consTo (ascii_of_N (16 * x + y)) (readString s3)
                  | _, _ => None
                  end
              | _ => None
              end
            else None
        end
      else consTo a (readString s1)
  end.

Fixpoint readPrefix (p s : string) : option string :=
  match p, s with
  | EmptyString, _ => Some s
  | String a p', String b s' => if Ascii.eqb a b then readPrefix p' s' else None
  | String _ _, EmptyString => None
  end.

(** A quoted string or [null]. *)
Definition readNullable (s : string) : option (option string * string) :=
  match s with
  | String a s' =>
      if Ascii.eqb a Json.dq then
        match readString s' with
        | Some (t, r) => Some (Some t, r)
        | None => None
        end
      else
        match readPrefix "null" s with
        | Some r => Some (None, r)
        | None => None
        end
  | EmptyString => None
  end.

Definition readKey (s : string) : option (string * Normalized) :=
  s1 ← readPrefix "{" s;
  s2 ← readPrefix (Json.member "whereSql") s1;
  '(w, s3) ← readNullable s2;
  s4 ← readPrefix "," s3;
  s5 ← readPrefix (Json.member "normalized") s4;
  s6 ← readPrefix "{" s5;
  s7 ← readPrefix (Json.member "status") s6;
  '(st, s8) ← readNullable s7;
  s9 ← readPrefix "," s8;
  s10 ← readPrefix (Json.member "search") s9;
  '(se, s11) ← readNullable s10;
  w' ← w;
  if String.eqb s11 "}}" then Some (w', {| n_status := st; n_search := se |}) else None.

(** Two requests with the same filter shape and sort, and different values. *)
Definition sampleQueryA : UsersQuery :=
  {| q_page := 1; q_pageSize := 50; q_search := "alice"; q_status := Some ACTIVE;
     q_sort := "name:asc" |}.

Definition sampleQueryB : UsersQuery :=
  {| q_page := 7; q_pageSize := 10; q_search := "x' OR 1=1 --";
     q_status := Some INACTIVE; q_sort := "name:ASC:junk" |}.

(** The first request on another page, in another order. *)
Definition sampleQueryC : UsersQuery :=
  {| q_page := 3; q_pageSize := 500; q_search := "  alice "; q_status := Some ACTIVE;
     q_sort := "email:desc" |}.

(** A response body, for the client. *)
Definition sampleRes : ApiRes :=
  usersResponse sampleUsersQuery sampleClock (take 2 sampleDb) 4 false.

(** * The rest of the code *)

(** ** Sequences of cache operations *)

Inductive CacheOp :=
  | CacheGet (now : Z) (key : string)
  | CacheSet (now : Z) (key : string) (v : Z).

Definition cacheOpKey (op : CacheOp) : string :=
  match op with
  | CacheGet _ k => k
  | CacheSet _ k _ => k
  end.

(** The map after one call of [getCountCache] or [setCountCache]. *)
Definition applyCacheOp (c : gmap string CacheEntry) (op : CacheOp)
    : gmap string CacheEntry :=
  match op with
  | CacheGet now k => snd (getCountCache now k c)
  | CacheSet now k v => setCountCache now k v c
  end.

Definition runCacheOps (ops : list CacheOp) (c : gmap string CacheEntry)
    : gmap string CacheEntry :=
  foldl applyCacheOp c ops.

(** ** Vocabulary for [GET /api/users] *)

(** The rows of the body a request is answered with ([[]] if it is not
    answered). *)
Definition usersRowsSent (like : string → string → bool) (db : list UserRow)
    (clock : Clock) (countCache : gmap string CacheEntry) (q : UsersQuery)
    : list UserRow :=
  match fst (usersHandler like db clock countCache q) with
  | inr res => res_rows res
  | inl _ => []
  end.

(** The number of rows of the table a request's filter selects. *)
Definition usersMatchCount (like : string → string → bool) (db : list UserRow)
    (q : UsersQuery) : nat :=
  length (List.filter (usersMatches like q) db).


(** ** Vocabulary for [GET /api/users-cursor] *)

(** The same request with another [status] field. *)
Definition withCursorStatus (s : option string) (q : CursorQuery) : CursorQuery :=
  {| cq_pageSize := cq_pageSize q; cq_search := cq_search q; cq_status := s;
     cq_cursorCreatedAt := cq_cursorCreatedAt q; cq_cursorId := cq_cursorId q |}.

(** The first page of the sample table, two rows a page. *)
Definition sampleFirstPage : CursorQuery :=
  {| cq_pageSize := Some "2"; cq_search := None; cq_status := None;
     cq_cursorCreatedAt := None; cq_cursorId := None |}.

(** ** Vocabulary for the search text *)



(** ** Vocabulary for the request sequencer *)

(** A settlement that cannot write the component state of [st]: of another
    request than the current one, or a failure. *)
Definition cannotApply (st : Client) (ev : Event) : Prop :=
  match ev with
  | Dispatch => False
  | Settle t (Resolved _) _ => t ≠ reqIdRef st
  | Settle _ (Rejected _) _ => True
  end.

(** The number of invocations of [fetchData] among the events. *)
Fixpoint dispatchCount (evs : list Event) : nat :=
  match evs with
  | [] => 0
  | Dispatch :: evs' => S (dispatchCount evs')
  | Settle _ _ _ :: evs' => dispatchCount evs'
  end.

(** What a run keeps true: ids and controllers are handed out together, the
    current controller is the newest and the only one not aborted. *)
Definition sequencerInv (st : Client) : Prop :=
  0 ≤ reqIdRef st ∧
  length (controllers st) = Z.to_nat (reqIdRef st) ∧
  abortRef st = (if decide (reqIdRef st = 0) then None
                 else Some (Z.to_nat (reqIdRef st) - 1)%nat) ∧
  ∀ i b, controllers st !! i = Some b →
         (b = false ↔ abortRef st = Some i).

(** An older answer to the sample request: the same table seen before its
    last two rows were there. *)
Definition sampleOlderRes : ApiRes :=
  usersResponse sampleUsersQuery sampleClock (take 1 sampleDb) 2 false.

(** ** The query parameters of the page and their controls ([App.tsx]) *)

(** [type QueryState]: the five [useState] values [fetchData] is called
    with.  Numbers are exact integers. *)
Record QueryState := {
  s_page : Z;
  s_pageSize : Z;
  s_sort : string;
  s_search : string;
  s_status : string
}.

Global Instance QueryState_eq_dec : EqDecision QueryState.
Proof. solve_decision. Defined.

(** The initial values of [useState]. *)
Definition initialQuery : QueryState :=
  {| s_page := 1; s_pageSize := 50; s_sort := "createdAt:desc";
     s_search := EmptyString; s_status := EmptyString |}.

(** [Math.ceil(a / b)] for integers [a] and [b > 0]. *)
Definition ceilDiv (a b : Z) : Z := - ((- a) / b).

(** [const totalPages = Math.max(1, Math.ceil(totalCount / pageSize))] *)
Definition totalPages (totalCount pageSize : Z) : Z :=
  Z.max 1 (ceilDiv totalCount pageSize).

(** The [field]s of [columnDefs]: the column ids of the grid. *)
Definition columnFields : list string := ["id"; "name"; "email"; "status"; "createdAt"].

(** The [<option>] values of the status and page size selects. *)
Definition statusOptions : list string := [EmptyString; "ACTIVE"; "INACTIVE"].

Definition pageSizeOptions : list Z := [50; 100; 500; 2000; 1000; 10000; 100000; 500000].

(** [Array.from({ length: Math.ceil(totalPages / 100) }, (_, idx) => (idx + 1) * 100)]:
    the [<option>] values of the page select. *)
Definition pageOptions (totalPages : Z) : list Z :=
  (λ idx : nat, (Z.of_nat idx + 1) * 100) <$> seq 0 (Z.to_nat (ceilDiv totalPages 100)).

(** [disabled={page <= 1}] and [disabled={page * pageSize >= totalCount}] *)
Definition prevDisabled (q : QueryState) : bool := s_page q <=? 1.

Definition nextDisabled (page pageSize totalCount : Z) : bool :=
  page * pageSize >=? totalCount.

(** An entry of [e.api.getColumnState()]: the column id and its [sort]
    (["asc"], ["desc"] or [null]). *)
Record ColumnState := { colId : string; col_sort : option string }.

Definition setPage (p : Z) (q : QueryState) : QueryState :=
  {| s_page := p; s_pageSize := s_pageSize q; s_sort := s_sort q;
     s_search := s_search q; s_status := s_status q |}.

Definition setPageSize (n : Z) (q : QueryState) : QueryState :=
  {| s_page := s_page q; s_pageSize := n; s_sort := s_sort q;
     s_search := s_search q; s_status := s_status q |}.

Definition setSort (s : string) (q : QueryState) : QueryState :=
  {| s_page := s_page q; s_pageSize := s_pageSize q; s_sort := s;
     s_search := s_search q; s_status := s_status q |}.

Definition setSearch (s : string) (q : QueryState) : QueryState :=
  {| s_page := s_page q; s_pageSize := s_pageSize q; s_sort := s_sort q;
     s_search := s; s_status := s_status q |}.

Definition setStatus (s : string) (q : QueryState) : QueryState :=
  {| s_page := s_page q; s_pageSize := s_pageSize q; s_sort := s_sort q;
     s_search := s_search q; s_status := s |}.

(** The grid's [onSortChanged]. *)
Definition onSortChanged (columnState : list ColumnState) (q : QueryState) : QueryState :=
  (* const state = e.api.getColumnState().find((c) => c.sort) *)
  match List.find (λ c, Js.truthy (col_sort c)) columnState with
  | None => q
  | Some state =>
      (* if (!state?.colId || !state.sort) return *)
      if negb (Js.truthy (Some (colId state))) || negb (Js.truthy (col_sort state))
      then q
      else
        (* setSort(`${state.colId}:${state.sort}`); setPage(1) *)
        setPage 1 (setSort (colId state +:+ ":" +:+ Js.or_else (col_sort state) EmptyString) q)
  end.

(** What the user does to the controls; a select hands over the value of the
    option chosen (the numbers through [Number(e.target.value)]). *)
Inductive Action :=
  | SearchInput (v : string)
  | StatusSelect (v : string)
  | PageSizeSelect (v : Z)
  | SortChanged (columnState : list ColumnState)
  | PrevClick
  | PageSelect (v : Z)
  | NextClick.

(** The event handlers; [totalCount] is the count on display.  A disabled
    button does not fire. *)
Definition handle (totalCount : Z) (a : Action) (q : QueryState) : QueryState :=
  match a with
  | SearchInput v => setPage 1 (setSearch v q)
  | StatusSelect v => setPage 1 (setStatus v q)
  | PageSizeSelect v => setPage 1 (setPageSize v q)
  | SortChanged columnState => onSortChanged columnState q
  | PrevClick =>
      if prevDisabled q then q else setPage (Z.max 1 (s_page q - 1)) q
  | PageSelect v => setPage v q
  | NextClick =>
      if nextDisabled (s_page q) (s_pageSize q) totalCount then q
      else setPage (s_page q + 1) q
  end.

(** The choices the controls offer. *)
Definition offered (totalCount : Z) (q : QueryState) (a : Action) : Prop :=
  match a with
  | StatusSelect v => v ∈ statusOptions
  | PageSizeSelect v => v ∈ pageSizeOptions
  | PageSelect v => v ∈ pageOptions (totalPages totalCount (s_pageSize q))
  | _ => True
  end.

(** What the handlers keep true of the parameters. *)
Definition wellFormed (q : QueryState) : Prop :=
  1 ≤ s_page q ∧ s_pageSize q ∈ pageSizeOptions ∧ s_status q ∈ statusOptions.

(** A session at the controls: each action with the count on display when it
    is taken. *)
Fixpoint handleAll (acts : list (Z * Action)) (q : QueryState) : QueryState :=
  match acts with
  | [] => q
  | (totalCount, a) :: acts' => handleAll acts' (handle totalCount a q)
  end.

Fixpoint allOffered (acts : list (Z * Action)) (q : QueryState) : Prop :=
  match acts with
  | [] => True
  | (totalCount, a) :: acts' =>
      offered totalCount q a ∧ allOffered acts' (handle totalCount a q)
  end.

(** The query string [fetchData] builds with [URLSearchParams], before it is
    written out: a parameter that is not set is [None].  [String(n)] of an
    integer is kept as the integer. *)
Record UrlParams := {
  u_page : option Z;
  u_pageSize : option Z;
  u_sort : option string;
  u_search : option string;
  u_status : option string
}.

Definition fetchParams (q : QueryState) : UrlParams :=
  let searchTrim := Js.trim (s_search q) in
  {| u_page := Some (s_page q);
     u_pageSize := Some (s_pageSize q);
     u_sort := Some (s_sort q);
     (* if (searchTrim) params.set("search", searchTrim) *)
     u_search := if Js.truthy (Some searchTrim) then Some searchTrim else None;
     (* if (q.status) params.set("status", q.status) *)
     u_status := if Js.truthy (Some (s_status q)) then Some (s_status q) else None |}.

(** [QuerySchema.safeParse] on parameters whose numbers are integers: [None]
    when the request is refused with status 400. *)
Definition QuerySchema (u : UrlParams) : option UsersQuery :=
  let page := default 1 (u_page u) in
  let pageSize := default 50 (u_pageSize u) in
  if negb (1 <=? page) then None
  else if negb ((1 <=? pageSize) && (pageSize <=? 1000000)) then None
  else
    match u_status u with
    | None =>
        Some {| q_page := page; q_pageSize := pageSize;
                q_search := default EmptyString (u_search u);
                q_status := None;
                q_sort := default "createdAt:desc" (u_sort u) |}
    | Some s =>
        if String.eqb s "ACTIVE" then
          Some {| q_page := page; q_pageSize := pageSize;
                  q_search := default EmptyString (u_search u);
                  q_status := Some ACTIVE;
                  q_sort := default "createdAt:desc" (u_sort u) |}
        else if String.eqb s "INACTIVE" then
          Some {| q_page := page; q_pageSize := pageSize;
                  q_search := default EmptyString (u_search u);
                  q_status := Some INACTIVE;
                  q_sort := default "createdAt:desc" (u_sort u) |}
        else None
    end.

(** A grid with one column sorted, and a short session at the controls. *)
Definition sampleColumnState : list ColumnState :=
  [ {| colId := "id"; col_sort := None |};
    {| colId := "name"; col_sort := Some "asc" |};
    {| colId := "email"; col_sort := None |} ].

Definition sampleSession : list (Z * Action) :=
  [ (0, SearchInput " user ");
    (4, PageSizeSelect 100);
    (4, SortChanged sampleColumnState);
    (4, NextClick);
    (4, PageSelect 100);
    (4, PrevClick);
    (4, StatusSelect "ACTIVE") ].

(** ** The page as a whole: parameters, debounce timer, requests ([App.tsx]) *)

Definition DEBOUNCE_MS : Z := 350.

(** The pending [setTimeout] of the effect: the time it is due and the
    parameters its callback closed over. *)
Record Timer := { due : Z; closure : QueryState }.

Record Page := { params : QueryState; timer : option Timer; client : Client }.

(** What happens to the page: the user acts on a control, the event loop
    runs the timers that are due, the network call of an invocation of
    [fetchData] settles.  [now] is the time in milliseconds. *)
Inductive PageEvent :=
  | Act (now : Z) (a : Action)
  | TimerPhase (now : Z)
  | Network (myReqId : Z) (o : Outcome) (elapsed : string).

(** What the page does with timers and the network. *)
Inductive Effect :=
  | TimerSet (now : Z) (q : QueryState)
  | Fetched (now : Z) (myReqId : Z) (q : QueryState).

(** The body of the effect: [setTimeout(() => fetchData({ page, ... }), DEBOUNCE_MS)]. *)
Definition useEffect (now : Z) (q : QueryState) : Timer :=
  {| due := now + DEBOUNCE_MS; closure := q |}.

(** The first render. *)
Definition mount (now : Z) : Page :=
  {| params := initialQuery; timer := Some (useEffect now initialQuery);
     client := initialClient |}.

Definition pageStep (st : Page) (ev : PageEvent) : Page * list Effect :=
  match ev with
  | Act now a =>
      let q := handle (totalCount (ui (client st))) a (params st) in
      (* no dependency changed: the effect does not run again *)
      if decide (q = params st) then (st, [])
      else
        (* the cleanup [clearTimeout(t)], then the effect *)
        ({| params := q; timer := Some (useEffect now q); client := client st |},
         [TimerSet now q])
  | TimerPhase now =>
      match timer st with
      | Some t =>
          if due t <=? now then
            let '(c, tk) := fetchData_begin (client st) in
            ({| params := params st; timer := None; client := c |},
             [Fetched now (myReqId tk) (closure t)])
          else (st, [])
      | None => (st, [])
      end
  | Network t o elapsed =>
      ({| params := params st; timer := timer st;
          client := step (client st) (Settle t o elapsed) |}, [])
  end.

Fixpoint pageRun (evs : list PageEvent) (st : Page) : Page * list Effect :=
  match evs with
  | [] => (st, [])
  | ev :: evs' =>
      let '(st1, out1) := pageStep st ev in
      let '(st2, out2) := pageRun evs' st1 in
      (st2, out1 ++ out2)
  end.

(** The effects of a session, the timer of the first render included. *)
Definition session (t0 : Z) (evs : list PageEvent) : list Effect :=
  TimerSet t0 initialQuery :: snd (pageRun evs (mount t0)).

(** Every request in a list of effects answers a timer set at least
    [DEBOUNCE_MS] earlier for the same parameters, with nothing in between;
    [pending] is the timer set before the list begins. *)
Fixpoint debounced (pending : option (Z * QueryState)) (tr : list Effect) : Prop :=
  match tr with
  | [] => True
  | TimerSet tc q :: tr' => debounced (Some (tc, q)) tr'
  | Fetched now _ q :: tr' =>
      match pending with
      | Some (tc, q0) => q = q0 ∧ tc + DEBOUNCE_MS ≤ now ∧ debounced None tr'
      | None => False
      end
  end.

(** Typing [al] and sorting within 350 ms, with the timers looked at in
    between; the answer to the first request comes late. *)
Definition sampleTyping : list PageEvent :=
  [ TimerPhase 400;
    Act 1000 (SearchInput "a");
    TimerPhase 1100;
    Act 1200 (SearchInput "al");
    TimerPhase 1400;
    Act 1500 (SortChanged sampleColumnState);
    TimerPhase 1849;
    TimerPhase 1850;
    Network 1 (Resolved sampleOlderRes) "1500.0";
    TimerPhase 3000 ].

(** * Properties *)

(** ** The definitions at work *)

Example trim_spaces : Js.trim "  User 1 " = "User 1".
Proof. reflexivity. Qed.

Example split_colons : Js.split ":" "name:asc:x" = ["name"; "asc"; "x"].
Proof. reflexivity. Qed.

Example parseSort_known : parseSort (Some "email:ASC") = {| field := "email"; dir := "ASC" |}.
Proof. reflexivity. Qed.

Example parseSort_unknown :
  parseSort (Some "password; DROP TABLE users") = {| field := "createdAt"; dir := "DESC" |}.
Proof. reflexivity. Qed.

Example parseInt_prefix : parseInt " 42px" = JInt 42.
Proof. reflexivity. Qed.

Example parseInt_negative : parseInt "-7" = JInt (-7).
Proof. reflexivity. Qed.

Example parseInt_nan : parseInt "abc" = JNaN.
Proof. reflexivity. Qed.

Example pageSize_default : cursorPageSize (withoutCursor sampleCursorQuery) = JInt 2
  ∧ cursorPageSize {| cq_pageSize := None; cq_search := None; cq_status := None;
                      cq_cursorCreatedAt := None; cq_cursorId := None |} = JInt 100
  ∧ cursorPageSize {| cq_pageSize := Some "0"; cq_search := None; cq_status := None;
                      cq_cursorCreatedAt := None; cq_cursorId := None |} = JInt 1
  ∧ cursorPageSize {| cq_pageSize := Some "50000"; cq_search := None; cq_status := None;
                      cq_cursorCreatedAt := None; cq_cursorId := None |} = JInt 10000.
Proof. repeat split; reflexivity. Qed.

Example like_contains : sqliteLike "%user 1%" "User 10" = true
  ∧ sqliteLike "%user 1%" "User 20" = false.
Proof. split; reflexivity. Qed.

Example prepare_rows :
  prepare (usersRowsSql sampleQueryA)
  = Some {| sel_count := false; sel_where := [CondStatus; CondSearch];
            sel_order := [(ColName, Asc)]; sel_limit := true; sel_offset := true |}.
Proof. vm_compute. reflexivity. Qed.

Example prepare_refuses : prepare "SELECT * FROM users; DROP TABLE users" = None.
Proof. vm_compute. reflexivity. Qed.

(** Page one of the sample table, two rows a page, by [id]. *)
Example users_page_one :
  ∃ res cache,
    usersHandler sqliteLike sampleDb sampleClock ∅ sampleUsersQuery = (inr res, cache)
    ∧ id <$> res_rows res = [1; 2]
    ∧ res_totalCount res = 4
    ∧ countFromCache (res_meta res) = false
    ∧ (getCountCache 30003 (countCacheKey sampleUsersQuery) cache).1 = Some 4
    ∧ (getCountCache 30004 (countCacheKey sampleUsersQuery) cache).1 = None.
Proof. eexists _, _. split; [reflexivity|]. repeat split; vm_compute; reflexivity. Qed.

(** A page size that is not a number: the statement refuses its [LIMIT]. *)
Example cursor_pageSize_nan :
  cursorHandler sqliteLike sampleDb 0 1
    {| cq_pageSize := Some "ten"; cq_search := None; cq_status := None;
       cq_cursorCreatedAt := None; cq_cursorId := None |}
  = inl DatatypeMismatch.
Proof. vm_compute. reflexivity. Qed.

(** ** Count cache *)

Section CountCache.

Implicit Types (c : gmap string CacheEntry) (key : string).

Lemma getCountCache_fresh now key v t c :
  t ≤ now + COUNT_CACHE_TTL_MS →
  getCountCache t key (setCountCache now key v c)
  = (Some v, setCountCache now key v c).
Proof.
  intros Ht. unfold getCountCache, setCountCache.
  rewrite lookup_insert_eq. simpl.
  destruct (Z.ltb_spec (now + COUNT_CACHE_TTL_MS) t) as [Hlt|Hge]; [lia|done].
Qed.

Lemma getCountCache_expired now key e c :
  c !! key = Some e → expiresAt e < now →
  getCountCache now key c = (None, delete key c).
Proof.
  intros Hk Hexp. unfold getCountCache. rewrite Hk.
  destruct (Z.ltb_spec (expiresAt e) now); [done|lia].
Qed.

(** A lookup never adds an entry. *)
Lemma getCountCache_keeps_absent now k key c :
  c !! key = None → (getCountCache now k c).2 !! key = None.
Proof.
  intros Hk. unfold getCountCache.
  destruct (c !! k) as [hit|] eqn:Hc; [|done].
  destruct (expiresAt hit <? now); [|done].
  simpl. destruct (decide (k = key)) as [->|Hne].
  - apply lookup_delete_eq.
  - by rewrite lookup_delete_ne.
Qed.

Lemma getCountCache_absent now key c :
  c !! key = None → (getCountCache now key c).1 = None.
Proof. intros Hk. unfold getCountCache. by rewrite Hk. Qed.

Lemma getMany_absent reads key c r :
  c !! key = None → (key, r) ∈ getMany reads c → r = None.
Proof.
  revert c. induction reads as [|[now k] reads IH]; intros c Hk Hin; simpl in Hin.
  - by apply elem_of_nil in Hin.
  - destruct (getCountCache now k c) as [r0 c'] eqn:Hg.
    apply elem_of_cons in Hin as [Heq|Hin].
    + injection Heq as <- ->.
      pose proof (getCountCache_absent now key c Hk) as H0.
      by rewrite Hg in H0.
    + apply (IH c'); [|done].
      pose proof (getCountCache_keeps_absent now k key c Hk) as H0.
      by rewrite Hg in H0.
Qed.

(** A value handed out has not expired at the time of the lookup. *)
Lemma getCountCache_live now key c v :
  (getCountCache now key c).1 = Some v →
  ∃ e, c !! key = Some e ∧ value e = v ∧ now ≤ expiresAt e.
Proof.
  unfold getCountCache. destruct (c !! key) as [hit|]; [|done].
  destruct (Z.ltb_spec (expiresAt hit) now); [done|].
  simpl. intros [= <-]. eauto.
Qed.

End CountCache.

(** C5: a value written with [setCountCache] is what [getCountCache] returns
    at any time strictly before 30 seconds have passed since the write; a
    lookup that finds the entry's [expiresAt] in the past returns [null] and
    deletes the entry, and no later lookup of that key returns a value. *)
Theorem countCache_ttl (c : gmap string CacheEntry) (key : string) (v t0 : Z) :
  COUNT_CACHE_TTL_MS = 30000 ∧
  (∀ t, t < t0 + 30000 →
     getCountCache t key (setCountCache t0 key v c)
     = (Some v, setCountCache t0 key v c)) ∧
  (∀ e now, c !! key = Some e → expiresAt e < now →
     getCountCache now key c = (None, delete key c) ∧
     (getCountCache now key c).2 !! key = None ∧
     ∀ reads r, (key, r) ∈ getMany reads (getCountCache now key c).2 → r = None).
Proof.
  split; [done|]. split.
  - intros t Ht. apply getCountCache_fresh. unfold COUNT_CACHE_TTL_MS. lia.
  - intros e now Hk Hexp.
    rewrite (getCountCache_expired now key e c Hk Hexp). simpl.
    split; [done|]. split; [apply lookup_delete_eq|].
    intros reads r. apply getMany_absent, lookup_delete_eq.
Qed.

Lemma countCache_ttl_witness :
  getCountCache 30999 "k" (setCountCache 1000 "k" 7 ∅)
  = (Some 7, setCountCache 1000 "k" 7 ∅) ∧
  getCountCache 31001 "k" (setCountCache 1000 "k" 7 ∅)
  = (None, delete "k" (setCountCache 1000 "k" 7 ∅)).
Proof.
  split.
  - destruct (countCache_ttl ∅ "k" 7 1000) as (_ & H & _). apply H. lia.
  - destruct (countCache_ttl (setCountCache 1000 "k" 7 ∅) "k" 0 0) as (_ & _ & H).
    apply (H {| value := 7; expiresAt := 31000 |} 31001).
    + reflexivity.
    + simpl. lia.
Defined.

(** ** Strings *)

Lemma app_cons a s t : String a s +:+ t = String a (s +:+ t).
Proof. reflexivity. Qed.

Lemma app_empty_l t : EmptyString +:+ t = t.
Proof. reflexivity. Qed.

Lemma app_empty_r s : s +:+ EmptyString = s.
Proof. induction s as [|a s IH]; [done|]. by rewrite app_cons, IH. Qed.

Lemma app_assoc_str s t u : (s +:+ t) +:+ u = s +:+ (t +:+ u).
Proof. induction s as [|a s IH]; [done|]. by rewrite !app_cons, IH. Qed.

Lemma string_length_pos (s : string) : (0 < String.length s)%nat ↔ s ≠ EmptyString.
Proof. destruct s; simpl; split; (done || lia). Qed.

(** ** Sort parsing *)

Section ParseSort.

Lemma split_no_sep sep f : contains sep f = false → Js.split sep f = [f].
Proof.
  induction f as [|a f IH]; simpl; [done|].
  intros [Ha Hf]%orb_false_iff. rewrite Ha, (IH Hf). done.
Qed.

Lemma split_at_sep sep f rest :
  contains sep f = false →
  Js.split sep (f +:+ String sep rest) = f :: Js.split sep rest.
Proof.
  induction f as [|a f IH].
  - intros _. rewrite app_empty_l. simpl. by rewrite Ascii.eqb_refl.
  - intros [Ha Hf]%orb_false_iff.
    rewrite app_cons. simpl. rewrite Ha, (IH Hf). done.
Qed.

Lemma split_head_tail sep d tail :
  contains sep d = false →
  tail = EmptyString ∨ (∃ t, tail = String sep t) →
  ∃ more, Js.split sep (d +:+ tail) = d :: more.
Proof.
  intros Hd [->|[t ->]].
  - exists []. rewrite app_empty_r. by apply split_no_sep.
  - eexists. by apply split_at_sep.
Qed.

Lemma lowerChar_inv (x y : ascii) :
  Js.lowerChar x = Js.lowerChar y →
  Js.lowerChar y = y →
  x = y ∨ (N_of_ascii x + 32 = N_of_ascii y)%N.
Proof.
  unfold Js.lowerChar.
  destruct (N.leb_spec 65 (N_of_ascii x)), (N.leb_spec (N_of_ascii x) 90),
           (N.leb_spec 65 (N_of_ascii y)), (N.leb_spec (N_of_ascii y) 90);
    simpl; intros E1 E2; auto;
    try (apply (f_equal N_of_ascii) in E2;
         rewrite N_ascii_embedding in E2; lia);
    right; apply (f_equal N_of_ascii) in E1;
    rewrite N_ascii_embedding in E1; lia.
Qed.

Lemma lowerChar_is (x y : ascii) (u : ascii) :
  Js.lowerChar y = y → N_of_ascii u = (N_of_ascii y - 32)%N →
  (32 <= N_of_ascii y)%N →
  Js.lowerChar x = y → x = y ∨ x = u.
Proof.
  intros Hy Hu Hge Hx.
  destruct (lowerChar_inv x y) as [->|H]; [congruence|done|auto|].
  right. rewrite <- (ascii_N_embedding x), <- (ascii_N_embedding u).
  f_equal. lia.
Qed.

Lemma toLowerCase_asc d :
  Js.toLowerCase d = "asc" ↔ d ∈ ascSpellings.
Proof.
  split.
  - destruct d as [|a [|b [|c [|? ?]]]]; simpl; try discriminate.
    intros [= Ha Hb Hc].
    apply (lowerChar_is a "a" "A")%char in Ha; [|done..].
    apply (lowerChar_is b "s" "S")%char in Hb; [|done..].
    apply (lowerChar_is c "c" "C")%char in Hc; [|done..].
    unfold ascSpellings.
    destruct Ha as [-> | ->], Hb as [-> | ->], Hc as [-> | ->];
      set_solver.
  - unfold ascSpellings. rewrite !elem_of_cons, elem_of_nil.
    intros H. repeat (destruct H as [->|H]; [reflexivity|]). done.
Qed.

Lemma dir_of_part (dirRaw : option string) d :
  dirRaw = Some d →
  (if String.eqb (Js.toLowerCase (Js.or_else dirRaw "desc")) "asc"
   then "ASC" else "DESC")
  = (if bool_decide (d ∈ ascSpellings) then "ASC" else "DESC").
Proof.
  intros ->. destruct d as [|a d]; [done|]. simpl Js.or_else.
  case_bool_decide as Hin.
  - apply toLowerCase_asc in Hin. by rewrite Hin.
  - destruct (String.eqb_spec (Js.toLowerCase (String a d)) "asc") as [Heq|]; [|done].
    by apply toLowerCase_asc in Heq.
Qed.

Lemma or_else_empty (s : string) : Js.or_else (Some s) EmptyString = s.
Proof. by destruct s. Qed.

Lemma or_else_allowed (f : string) :
  (if allowed_has (Js.or_else (Some f) "createdAt")
   then Js.or_else (Some f) "createdAt" else "createdAt")
  = (if allowed_has f then f else "createdAt").
Proof. by destruct f. Qed.

End ParseSort.

(** C7: with [f] the text before the first colon and [d] the text between
    the first and the second colon (if any), [parseSort] yields [f] when it is
    on the allowlist and [createdAt] otherwise, and direction [ASC] exactly
    when [d] spells [asc] in some letter case, [DESC] in every other case,
    the missing direction included.  [parseSort] is total. *)
Theorem parseSort_allowlist (f d tail : string) :
  contains ":" f = false →
  contains ":" d = false →
  tail = EmptyString ∨ (∃ t, tail = String ":" t) →
  let resolved := if bool_decide (f ∈ allowed) then f else "createdAt" in
  (f ∉ allowed → resolved = "createdAt") ∧
  parseSort None = {| field := "createdAt"; dir := "DESC" |} ∧
  parseSort (Some f) = {| field := resolved; dir := "DESC" |} ∧
  parseSort (Some (f +:+ ":" +:+ d +:+ tail))
  = {| field := resolved;
       dir := if bool_decide (d ∈ ascSpellings) then "ASC" else "DESC" |}.
Proof.
  intros Hf Hd Htail resolved. split; [|split; [done|split]].
  - intros Hnot. unfold resolved. by rewrite bool_decide_eq_false_2.
  - unfold parseSort. rewrite or_else_empty, (split_no_sep _ _ Hf).
    simpl lookup. by rewrite or_else_allowed.
  - unfold parseSort.
    destruct (split_head_tail ":" d tail Hd Htail) as [more Hmore].
    rewrite or_else_empty.
    change (":" +:+ d +:+ tail) with (String ":" (d +:+ tail)).
    rewrite (split_at_sep _ _ _ Hf), Hmore. simpl lookup.
    rewrite or_else_allowed. f_equal. by apply dir_of_part.
Qed.

Lemma parseSort_allowlist_witness :
  parseSort (Some "bogus:AsC:x") = {| field := "createdAt"; dir := "ASC" |} ∧
  parseSort (Some "email:up") = {| field := "email"; dir := "DESC" |}.
Proof.
  split.
  - destruct (parseSort_allowlist "bogus" "AsC" ":x") as (_ & _ & _ & H).
    + reflexivity.
    + reflexivity.
    + right. by exists "x".
    + exact H.
  - destruct (parseSort_allowlist "email" "up" EmptyString) as (_ & _ & _ & H).
    + reflexivity.
    + reflexivity.
    + by left.
    + exact H.
Defined.

(** Every input has the shape the theorem above speaks of. *)
Lemma sort_input_shape (s : string) :
  ∃ f, contains ":" f = false ∧
       (s = f ∨ ∃ d tail, contains ":" d = false ∧
                          (tail = EmptyString ∨ ∃ t, tail = String ":" t) ∧
                          s = f +:+ ":" +:+ d +:+ tail).
Proof.
  assert (Hsplit : ∀ s, ∃ f, contains ":" f = false ∧
                              (s = f ∨ ∃ r, s = f +:+ String ":" r)).
  { clear s. induction s as [|a s (f & Hf & IH)].
    - exists EmptyString. auto.
    - destruct (Ascii.eqb_spec a ":") as [->|Hne].
      + exists EmptyString. split; [done|]. right. by exists s.
      + exists (String a f). split.
        * simpl. rewrite Hf. by destruct (Ascii.eqb_spec a ":").
        * destruct IH as [->|[r ->]]; [by left|right; by exists r]. }
  destruct (Hsplit s) as (f & Hf & [->|[r ->]]); exists f; (split; [done|]).
  - by left.
  - right. destruct (Hsplit r) as (d & Hd & [->|[r' ->]]).
    + exists d, EmptyString. rewrite app_empty_r. auto.
    + exists d, (String ":" r'). split; [done|]. split; [right; by eexists|done].
Qed.

(** ** Row order: [ORDER BY] is a total preorder *)

Section CmpOrderFacts.

Context {A} (cmp : A → A → comparison) `{!CmpOrder cmp}.

Lemma cmp_eq_sym x y : cmp x y = Eq → cmp y x = Eq.
Proof. intros H. by rewrite (cmp_antisym cmp y x), H. Qed.

Lemma cmp_eq_r x y z : cmp y z = Eq → cmp x y = cmp x z.
Proof.
  intros H. rewrite (cmp_antisym cmp x y), (cmp_antisym cmp x z).
  f_equal. symmetry. apply (cmp_eq_l cmp). by apply cmp_eq_sym.
Qed.

Lemma cmp_refl x : cmp x x = Eq.
Proof.
  pose proof (cmp_antisym cmp x x) as H. destruct (cmp x x); done.
Qed.

Lemma cmp_gt_lt x y : cmp x y = Gt ↔ cmp y x = Lt.
Proof.
  rewrite (cmp_antisym cmp x y). destruct (cmp y x); simpl; split; done.
Qed.

Lemma cmp_le_trans x y z : cmp x y ≠ Gt → cmp y z ≠ Gt → cmp x z ≠ Gt.
Proof.
  intros Hxy Hyz.
  destruct (cmp x y) eqn:E1; [| |done].
  - by rewrite (cmp_eq_l cmp x y z E1).
  - destruct (cmp y z) eqn:E2; [| |done].
    + by rewrite <- (cmp_eq_r x y z E2), E1.
    + by rewrite (cmp_lt_trans cmp x y z E1 E2).
Qed.

Lemma cmp_le_total x y : cmp x y ≠ Gt ∨ cmp y x ≠ Gt.
Proof.
  rewrite (cmp_antisym cmp y x). destruct (cmp x y); simpl; auto.
Qed.

End CmpOrderFacts.


Lemma string_compare_lt_trans (s1 s2 s3 : string) :
  String.compare s1 s2 = Lt → String.compare s2 s3 = Lt → String.compare s1 s3 = Lt.
Proof.
  revert s2 s3. induction s1 as [|a1 s1 IH]; intros [|a2 s2] [|a3 s3]; simpl; try done.
  unfold Ascii.compare.
  destruct (N.compare_spec (N_of_ascii a1) (N_of_ascii a2)) as [E12|L12|G12];
  destruct (N.compare_spec (N_of_ascii a2) (N_of_ascii a3)) as [E23|L23|G23];
  try done; intros H1 H2.
  - rewrite E12, E23, N.compare_refl. eauto.
  - rewrite E12. by apply N.compare_lt_iff in L23 as ->.
  - rewrite <- E23. by apply N.compare_lt_iff in L12 as ->.
  - assert (N_of_ascii a1 < N_of_ascii a3)%N as Hlt by lia.
    by apply N.compare_lt_iff in Hlt as ->.
Qed.

Global Instance String_compare_order : CmpOrder String.compare.
Proof.
  split.
  - apply String.compare_antisym.
  - apply string_compare_lt_trans.
  - intros x y z H. by apply String.compare_eq_iff in H as ->.
Qed.

Global Instance Z_compare_order : CmpOrder Z.compare.
Proof.
  split.
  - intros x y. apply Z.compare_antisym.
  - intros x y z. rewrite !Z.compare_lt_iff. lia.
  - intros x y z H. by apply Z.compare_eq in H as ->.
Qed.

(** Comparing rows by one of their components. *)
Lemma on_key_order {A B} (cmp : B → B → comparison) (key : A → B)
  `{!CmpOrder cmp} : CmpOrder (λ x y, cmp (key x) (key y)).
Proof.
  split.
  - intros x y. apply (cmp_antisym cmp).
  - intros x y z. apply (cmp_lt_trans cmp).
  - intros x y z. apply (cmp_eq_l cmp).
Qed.

Lemma flip_order {A} (cmp : A → A → comparison) `{!CmpOrder cmp} :
  CmpOrder (λ x y, cmp y x).
Proof.
  split.
  - intros x y. apply (cmp_antisym cmp).
  - intros x y z H1 H2. by apply (cmp_lt_trans cmp z y x).
  - intros x y z H. apply (cmp_eq_r cmp). by apply (cmp_eq_sym cmp).
Qed.

Lemma lex_order {A} (c1 c2 : A → A → comparison)
  `{!CmpOrder c1, !CmpOrder c2} :
  CmpOrder (λ x y, match c1 x y with Eq => c2 x y | ne => ne end).
Proof.
  split.
  - intros x y. rewrite (cmp_antisym c1 x y).
    destruct (c1 y x); simpl; [apply (cmp_antisym c2)|done..].
  - intros x y z.
    destruct (c1 x y) eqn:E1; [| |done].
    + rewrite (cmp_eq_l c1 x y z E1).
      destruct (c1 y z); [apply (cmp_lt_trans c2)|done..].
    + intros _. destruct (c1 y z) eqn:E2; [| |done].
      * by rewrite <- (cmp_eq_r c1 x y z E2), E1.
      * by rewrite (cmp_lt_trans c1 x y z E1 E2).
  - intros x y z.
    destruct (c1 x y) eqn:E1; [|done..].
    rewrite (cmp_eq_l c1 x y z E1).
    intros E2. destruct (c1 y z); [by apply (cmp_eq_l c2)|done..].
Qed.

Global Instance colCompare_order c : CmpOrder (colCompare c).
Proof.
  destruct c; unfold colCompare.
  - apply (on_key_order Z.compare id).
  - apply (on_key_order String.compare name).
  - apply (on_key_order String.compare email).
  - apply (on_key_order String.compare status).
  - apply (on_key_order String.compare createdAt).
Qed.

Global Instance termCompare_order t : CmpOrder (termCompare t).
Proof.
  destruct t as [c []]; unfold termCompare; simpl.
  - apply colCompare_order.
  - apply (flip_order (colCompare c)).
Qed.

Global Instance orderCompare_order os : CmpOrder (orderCompare os).
Proof.
  induction os as [|t os IH]; simpl.
  - split; done.
  - apply (lex_order (termCompare t) (orderCompare os)).
Qed.

Global Instance orderLe_trans os : Transitive (orderLe os).
Proof. intros x y z. apply (cmp_le_trans (orderCompare os)). Qed.

Global Instance orderLe_total os : Total (orderLe os).
Proof. intros x y. apply (cmp_le_total (orderCompare os)). Qed.

(** ** The statements the handlers prepare *)

Section Statements.

Lemma parseSort_field_allowed s : field (parseSort s) ∈ allowed.
Proof.
  unfold parseSort. simpl. unfold allowed_has. case_bool_decide; [done|].
  unfold allowed. set_solver.
Qed.

Lemma parseSort_dir s : dir (parseSort s) = "ASC" ∨ dir (parseSort s) = "DESC".
Proof.
  unfold parseSort. simpl.
  destruct (String.eqb _ "asc"); auto.
Qed.

Lemma usersWhereSql_cases q :
  usersWhereSql q =
  match q_status q, searchGiven (q_search q) with
  | None, false => EmptyString
  | Some _, false => "WHERE status = @status"
  | None, true => "WHERE (name LIKE @q OR email LIKE @q)"
  | Some _, true => "WHERE status = @status AND (name LIKE @q OR email LIKE @q)"
  end.
Proof.
  unfold usersWhereSql, usersWhere.
  destruct (q_status q), (searchGiven (q_search q)); reflexivity.
Qed.

Lemma prepare_usersRowsSql q :
  prepare (usersRowsSql q) =
  Some {| sel_count := false; sel_where := usersConds q;
          sel_order := [(columnOf (field (parseSort (Some (q_sort q)))),
                         directionOf (dir (parseSort (Some (q_sort q)))))];
          sel_limit := true; sel_offset := true |}.
Proof.
  unfold usersRowsSql, usersConds. rewrite usersWhereSql_cases.
  pose proof (parseSort_field_allowed (Some (q_sort q))) as Hf.
  pose proof (parseSort_dir (Some (q_sort q))) as Hd.
  unfold allowed in Hf. rewrite !elem_of_cons, elem_of_nil in Hf.
  destruct (q_status q), (searchGiven (q_search q));
    destruct Hf as [-> | [-> | [-> | [-> | [-> | []]]]]];
    destruct Hd as [-> | ->]; vm_compute; reflexivity.
Qed.

Lemma prepare_usersCountSql q :
  prepare (countSql (usersWhereSql q)) =
  Some {| sel_count := true; sel_where := usersConds q; sel_order := [];
          sel_limit := false; sel_offset := false |}.
Proof.
  unfold usersConds. rewrite usersWhereSql_cases.
  destruct (q_status q), (searchGiven (q_search q)); vm_compute; reflexivity.
Qed.

End Statements.

(** ** The count-cache key *)

Section CacheKey.

Lemma readString_escapeChar (a : ascii) (rest : string) :
  readString (Json.escapeChar a +:+ rest) = consTo a (readString rest).
Proof. destruct a as [[] [] [] [] [] [] [] []]; reflexivity. Qed.

Lemma readString_escape (s r : string) :
  readString (Json.escape s +:+ String Json.dq r) = Some (s, r).
Proof.
  induction s as [|a s IH]; [reflexivity|].
  simpl Json.escape. rewrite app_assoc_str, readString_escapeChar, IH. done.
Qed.

Lemma readNullable_nullable (o : option string) (r : string) :
  readNullable (Json.nullable o +:+ r) = Some (o, r).
Proof.
  destruct o as [s|]; [|reflexivity].
  unfold Json.nullable, Json.quote. rewrite app_cons. simpl.
  rewrite app_assoc_str. change (String Json.dq EmptyString +:+ r) with (String Json.dq r).
  by rewrite readString_escape.
Qed.

Lemma readPrefix_app (p r : string) : readPrefix p (p +:+ r) = Some r.
Proof.
  induction p as [|a p IH]; [by destruct r|].
  rewrite app_cons. simpl. by rewrite Ascii.eqb_refl.
Qed.

Lemma readKey_countCacheKeyOf (w : string) (n : Normalized) :
  readKey (countCacheKeyOf w n) = Some (w, n).
Proof.
  unfold readKey, countCacheKeyOf.
  rewrite (readPrefix_app "{").
  cbn [mbind option_bind].
  rewrite (readPrefix_app (Json.member "whereSql")).
  cbn [mbind option_bind].
  change (Json.quote w) with (Json.nullable (Some w)).
  rewrite readNullable_nullable.
  cbn [mbind option_bind].
  rewrite (readPrefix_app ",").
  cbn [mbind option_bind].
  rewrite (readPrefix_app (Json.member "normalized")).
  cbn [mbind option_bind].
  rewrite (readPrefix_app "{").
  cbn [mbind option_bind].
  rewrite (readPrefix_app (Json.member "status")).
  cbn [mbind option_bind].
  rewrite readNullable_nullable.
  cbn [mbind option_bind].
  rewrite (readPrefix_app ",").
  cbn [mbind option_bind].
  rewrite (readPrefix_app (Json.member "search")).
  cbn [mbind option_bind].
  rewrite readNullable_nullable.
  cbn [mbind option_bind].
  by destruct n.
Qed.

Lemma countCacheKeyOf_inj w1 n1 w2 n2 :
  countCacheKeyOf w1 n1 = countCacheKeyOf w2 n2 → w1 = w2 ∧ n1 = n2.
Proof.
  intros H. apply (f_equal readKey) in H.
  rewrite !readKey_countCacheKeyOf in H. by injection H.
Qed.

Lemma searchGiven_trim (s : string) :
  searchGiven s = bool_decide (Js.trim s ≠ EmptyString).
Proof.
  unfold searchGiven. destruct s as [|a s].
  - reflexivity.
  - simpl negb. rewrite andb_true_l.
    apply bool_decide_ext, string_length_pos.
Qed.

Lemma usersWhereSql_normalized q1 q2 :
  normalized q1 = normalized q2 → usersWhereSql q1 = usersWhereSql q2.
Proof.
  unfold normalized. intros [= Hst Hse].
  rewrite !usersWhereSql_cases.
  assert (searchGiven (q_search q1) = searchGiven (q_search q2)) as ->.
  { by destruct (searchGiven (q_search q1)), (searchGiven (q_search q2)). }
  by destruct (q_status q1), (q_status q2).
Qed.

End CacheKey.

(** C6: the count-cache key is a function of the normalized filter alone
    (status or [null]; search trimmed, [null] when nothing is left): requests
    with equal normalized filters have equal keys whatever their page, page
    size and sort, and requests with different normalized filters have
    different keys. *)
Theorem countCacheKey_by_filter (q1 q2 : UsersQuery) :
  (countCacheKey q1 = countCacheKey q2 ↔ normalized q1 = normalized q2) ∧
  (∀ page pageSize sort,
     countCacheKey {| q_page := page; q_pageSize := pageSize;
                      q_search := q_search q1; q_status := q_status q1;
                      q_sort := sort |}
     = countCacheKey q1) ∧
  n_status (normalized q1) = statusStr <$> q_status q1 ∧
  n_search (normalized q1)
  = (if bool_decide (Js.trim (q_search q1) ≠ EmptyString)
     then Some (Js.trim (q_search q1)) else None).
Proof.
  split; [split|split; [done|split; [done|]]].
  - unfold countCacheKey. by intros [_ ?]%countCacheKeyOf_inj.
  - intros H. unfold countCacheKey. by rewrite H, (usersWhereSql_normalized q1 q2 H).
  - unfold normalized. simpl. by rewrite searchGiven_trim.
Qed.

Lemma countCacheKey_by_filter_witness :
  countCacheKey sampleQueryA = countCacheKey sampleQueryC.
Proof.
  destruct (countCacheKey_by_filter sampleQueryA sampleQueryC) as ([_ H] & _).
  apply H. reflexivity.
Defined.

(** ** The SQL text *)

(** C9: the text of the row statement and of the count statement is fixed by
    whether a status is given, whether the trimmed search is non-empty, and
    the (field, direction) pair [parseSort] resolves: two requests that agree
    on those prepare identical texts.  The status and the search reach the
    statement as the bound parameters [@status] and [@q] only. *)
Theorem sql_text_by_shape (q1 q2 : UsersQuery) :
  (is_Some (q_status q1) ↔ is_Some (q_status q2)) →
  (Js.trim (q_search q1) = EmptyString ↔ Js.trim (q_search q2) = EmptyString) →
  parseSort (Some (q_sort q1)) = parseSort (Some (q_sort q2)) →
  usersRowsSql q1 = usersRowsSql q2 ∧
  countSql (usersWhereSql q1) = countSql (usersWhereSql q2) ∧
  field (parseSort (Some (q_sort q1))) ∈ allowed ∧
  dir (parseSort (Some (q_sort q1))) ∈ ["ASC"; "DESC"] ∧
  p_status (usersRowsParams q1) = statusStr <$> q_status q1 ∧
  p_q (usersRowsParams q1)
  = (if bool_decide (Js.trim (q_search q1) ≠ EmptyString)
     then Some ("%" +:+ Js.trim (q_search q1) +:+ "%") else None) ∧
  p_limit (usersRowsParams q1) = Some (JInt (q_pageSize q1)) ∧
  p_offset (usersRowsParams q1) = Some (JInt ((q_page q1 - 1) * q_pageSize q1)) ∧
  p_status (snd (usersWhere q1)) = p_status (usersRowsParams q1) ∧
  p_q (snd (usersWhere q1)) = p_q (usersRowsParams q1).
Proof.
  intros Hst Hse Hsort.
  assert (Hw : usersWhereSql q1 = usersWhereSql q2).
  { rewrite !usersWhereSql_cases, !searchGiven_trim.
    assert (bool_decide (Js.trim (q_search q1) ≠ EmptyString)
            = bool_decide (Js.trim (q_search q2) ≠ EmptyString)) as ->.
    { apply bool_decide_ext. by rewrite Hse. }
    destruct (q_status q1), (q_status q2); try done.
    - destruct Hst as [Hst _]. destruct Hst as [? [=]]. by eexists.
    - destruct Hst as [_ Hst]. destruct Hst as [? [=]]. by eexists. }
  split; [unfold usersRowsSql; by rewrite Hw, Hsort|].
  split; [by rewrite Hw|].
  split; [apply parseSort_field_allowed|].
  split.
  { rewrite !elem_of_cons. destruct (parseSort_dir (Some (q_sort q1))); auto. }
  unfold usersRowsParams, usersWhere, offsetOf. rewrite searchGiven_trim.
  destruct (q_status q1); case_bool_decide; simpl; done.
Qed.

Lemma sql_text_by_shape_witness :
  usersRowsSql sampleQueryA = usersRowsSql sampleQueryB ∧
  p_q (usersRowsParams sampleQueryB) = Some "%x' OR 1=1 --%".
Proof.
  destruct (sql_text_by_shape sampleQueryA sampleQueryB)
    as (H & _ & _ & _ & _ & _).
  - split; intros _; by eexists.
  - split; discriminate.
  - reflexivity.
  - split; [exact H|].
    destruct (sql_text_by_shape sampleQueryB sampleQueryB)
      as (_ & _ & _ & _ & _ & Hq & _); [done..|]. exact Hq.
Defined.

(** ** Offset pagination *)

Section Offset.

Variable like : string → string → bool.

Lemma filter_ext_bool {A} (f g : A → bool) (l : list A) :
  (∀ x, f x = g x) → List.filter f l = List.filter g l.
Proof. intros H. apply List.filter_ext. exact H. Qed.

Lemma usersRowsParams_bind q :
  ∃ f, bindConds like (usersRowsParams q) (usersConds q) = inr f
       ∧ ∀ r, f r = usersMatches like q r.
Proof.
  unfold usersConds, usersRowsParams, usersWhere, usersMatches.
  destruct (q_status q) as [st|], (searchGiven (q_search q)); simpl;
    eexists; (split; [reflexivity|]); intros r; simpl;
    rewrite ?andb_true_r; reflexivity.
Qed.

Lemma usersCountParams_bind q :
  ∃ f, bindConds like (snd (usersWhere q)) (usersConds q) = inr f
       ∧ ∀ r, f r = usersMatches like q r.
Proof.
  unfold usersConds, usersWhere, usersMatches.
  destruct (q_status q) as [st|], (searchGiven (q_search q)); simpl;
    eexists; (split; [reflexivity|]); intros r; simpl;
    rewrite ?andb_true_r; reflexivity.
Qed.

(** The rows of the page: the window of the ordered matches. *)
Lemma users_queryAll db q :
  queryAll like db (usersRowsSql q) (usersRowsParams q)
  = inr (sqlLimit (q_pageSize q)
           (sqlOffset (offsetOf q)
              (merge_sort (orderLe (usersOrder q))
                 (List.filter (usersMatches like q) db)))).
Proof.
  unfold queryAll. rewrite prepare_usersRowsSql. simpl.
  unfold stmtAll. simpl.
  destruct (usersRowsParams_bind q) as (f & -> & Hf).
  unfold orderedMatches. simpl.
  by rewrite (filter_ext_bool f (usersMatches like q) db Hf).
Qed.

Lemma users_queryCount db q :
  queryCount like db (countSql (usersWhereSql q)) (snd (usersWhere q))
  = inr (Z.of_nat (length (List.filter (usersMatches like q) db))).
Proof.
  unfold queryCount. rewrite prepare_usersCountSql. simpl.
  unfold stmtCount. simpl.
  destruct (usersCountParams_bind q) as (f & -> & Hf).
  by rewrite (filter_ext_bool f (usersMatches like q) db Hf).
Qed.

(** A validated request is always answered, with the window as its rows. *)
Lemma usersHandler_answers db clock cache q :
  ∃ total fromCache cache',
    usersHandler like db clock cache q
    = (inr (usersResponse q clock
              (sqlLimit (q_pageSize q)
                 (sqlOffset (offsetOf q)
                    (merge_sort (orderLe (usersOrder q))
                       (List.filter (usersMatches like q) db))))
              total fromCache), cache').
Proof.
  unfold usersHandler. rewrite users_queryAll.
  destruct (getCountCache (tGet clock) (countCacheKey q) cache) as [[n|] c'].
  - eauto.
  - rewrite users_queryCount. eauto.
Qed.

End Offset.

Section OffsetPages.

Variable like : string → string → bool.



Lemma users_window db q :
  1 ≤ q_pageSize q →
  sqlLimit (q_pageSize q)
    (sqlOffset (offsetOf q)
       (merge_sort (orderLe (usersOrder q)) (List.filter (usersMatches like q) db)))
  = take (Z.to_nat (q_pageSize q))
      (drop (Z.to_nat ((q_page q - 1) * q_pageSize q))
         (merge_sort (orderLe (usersOrder q)) (List.filter (usersMatches like q) db))).
Proof.
  intros Hsize. unfold sqlLimit, sqlOffset, offsetOf.
  destruct (Z.ltb_spec (q_pageSize q) 0); [lia|done].
Qed.


End OffsetPages.



(** ** Keyset pagination *)

Section Keyset.

Variable like : string → string → bool.

Implicit Types (q : CursorQuery) (r : UserRow) (db : list UserRow).

Lemma prepare_cursorRowsSql b1 b2 b3 :
  prepare (cursorRowsSql (whereSqlOf (cursorWhereStrings b1 b2 b3)))
  = Some {| sel_count := false; sel_where := cursorConds b1 b2 b3;
            sel_order := keysetTerms; sel_limit := true; sel_offset := false |}.
Proof. destruct b1, b2, b3; vm_compute; reflexivity. Qed.

Lemma cursorComplete_inv q :
  cursorComplete q = true →
  ∃ c i, cursorCreatedAtOf q = Some c ∧ cursorIdOf q = Some (JInt i).
Proof.
  unfold cursorComplete. intros [H1 H2]%andb_true_iff.
  destruct (cursorCreatedAtOf q) as [c|]; [|done].
  destruct (cursorIdOf q) as [[| i | |]|]; try done. eauto.
Qed.

Lemma cursorStatusFilter_is_Some q :
  bool_decide (orNull (cq_status q) = Some "ACTIVE")
  || bool_decide (orNull (cq_status q) = Some "INACTIVE") = true →
  cursorStatusFilter q = orNull (cq_status q) ∧ is_Some (orNull (cq_status q)).
Proof.
  intros H. unfold cursorStatusFilter. simpl. rewrite H. split; [done|].
  apply orb_true_iff in H as [H|H]; apply bool_decide_eq_true in H; rewrite H; eauto.
Qed.

(** The statement text and the parameters, by cases on the guards. *)
Lemma cursorWhere_cases q :
  let b1 := bool_decide (orNull (cq_status q) = Some "ACTIVE")
            || bool_decide (orNull (cq_status q) = Some "INACTIVE") in
  let b2 := cursorSearchGiven q in
  let b3 := cursorComplete q in
  cursorWhere q =
  (cursorWhereStrings b1 b2 b3,
   {| p_status := if b1 then orNull (cq_status q) else None;
      p_q := if b2 then Some ("%" +:+ cursorSearch q +:+ "%") else None;
      p_limit := Some (cursorPageSize q);
      p_offset := None;
      p_cursorCreatedAt := if b3 then cursorCreatedAtOf q else None;
      p_cursorId := if b3 then cursorIdOf q else None |}).
Proof.
  intros b1 b2 b3. unfold cursorWhere. fold b1. unfold cursorSearchGiven in b2.
  fold b2. fold b3. destruct b1, b2, b3; reflexivity.
Qed.

Lemma cursor_bind q :
  ∃ f, bindConds like (cursorWhere q).2
         (cursorConds
            (bool_decide (orNull (cq_status q) = Some "ACTIVE")
             || bool_decide (orNull (cq_status q) = Some "INACTIVE"))
            (cursorSearchGiven q) (cursorComplete q)) = inr f
       ∧ ∀ r, f r = cursorTest like q r.
Proof.
  rewrite cursorWhere_cases. simpl.
  unfold cursorTest, cursorFilterTest.
  destruct (bool_decide _ || bool_decide _) eqn:E1.
  - destruct (cursorStatusFilter_is_Some q E1) as [-> [s ->]].
    destruct (cursorSearchGiven q), (cursorComplete q) eqn:E3; simpl.
    + destruct (cursorComplete_inv q E3) as (c & i & -> & ->). simpl.
      eexists; split; [reflexivity|]. intros r. simpl.
      by rewrite andb_true_r, andb_assoc.
    + eexists; split; [reflexivity|]. intros r. simpl.
      by rewrite !andb_true_r.
    + destruct (cursorComplete_inv q E3) as (c & i & -> & ->). simpl.
      eexists; split; [reflexivity|]. intros r. simpl.
      by rewrite !andb_true_r.
    + eexists; split; [reflexivity|]. intros r. simpl.
      by rewrite !andb_true_r.
  - assert (cursorStatusFilter q = None) as ->.
    { unfold cursorStatusFilter. simpl. by rewrite E1. }
    destruct (cursorSearchGiven q), (cursorComplete q) eqn:E3; simpl.
    + destruct (cursorComplete_inv q E3) as (c & i & -> & ->). simpl.
      eexists; split; [reflexivity|]. intros r. simpl.
      by rewrite andb_true_r.
    + eexists; split; [reflexivity|]. intros r. simpl.
      by rewrite !andb_true_r.
    + destruct (cursorComplete_inv q E3) as (c & i & -> & ->). simpl.
      eexists; split; [reflexivity|]. intros r. simpl.
      by rewrite !andb_true_r.
    + eexists; split; [reflexivity|]. intros r. simpl. done.
Qed.

(** What the handler answers: a window of the ordered matches, or the
    refusal of a [LIMIT] that is not a number. *)
Lemma cursorHandler_eq db t0 t1 q :
  cursorHandler like db t0 t1 q =
  match cursorPageSize q with
  | JInt n =>
      inr (cursorResponse q t0 t1
             (sqlLimit n (merge_sort (orderLe keysetTerms)
                            (List.filter (cursorTest like q) db))))
  | _ => inl DatatypeMismatch
  end.
Proof.
  unfold cursorHandler.
  destruct (cursor_bind q) as (f & Hbind & Hf).
  pose proof (cursorWhere_cases q) as Hw. simpl in Hw.
  destruct (cursorWhere q) as [w p] eqn:Ew. simpl in Hbind.
  injection Hw as Hw1 Hw2.
  unfold queryAll. rewrite Hw1, prepare_cursorRowsSql. simpl.
  unfold stmtAll. simpl. rewrite Hbind.
  assert (p_limit p = Some (cursorPageSize q)) as -> by (by rewrite Hw2).
  unfold orderedMatches. simpl.
  rewrite (filter_ext_bool f (cursorTest like q) db Hf).
  unfold cursorResponse. destruct (cursorPageSize q); reflexivity.
Qed.

Lemma cursorPageSize_range q n : cursorPageSize q = JInt n → 1 ≤ n ≤ 10000.
Proof.
  unfold cursorPageSize.
  destruct (parseInt _) as [|m| |]; simpl; intros [= <-]; lia.
Qed.

End Keyset.

Section KeysetPage.

Variable like : string → string → bool.

Implicit Types (q : CursorQuery) (r : UserRow) (db : list UserRow).






Lemma nextCursor_last (rows : list UserRow) q t0 t1 :
  nextCursor (cursorResponse q t0 t1 rows)
  = (λ l, {| nc_cursorCreatedAt := createdAt l; nc_cursorId := id l |}) <$> last rows.
Proof. unfold cursorResponse. simpl. by destruct (last rows). Qed.

End KeysetPage.



Section PartialCursor.

Variable like : string → string → bool.

Lemma cursorWhere_without q :
  cursorComplete q = false → cursorWhere q = cursorWhere (withoutCursor q).
Proof.
  intros H. rewrite !cursorWhere_cases. simpl. rewrite H. reflexivity.
Qed.

Lemma cursorTest_without q r :
  cursorComplete q = false →
  cursorTest like q r = cursorTest like (withoutCursor q) r.
Proof. intros H. unfold cursorTest. rewrite H. reflexivity. Qed.

Lemma rowsOf_without db t0 t1 q :
  cursorComplete q = false →
  rowsOf (cursorHandler like db t0 t1 q)
  = rowsOf (cursorHandler like db t0 t1 (withoutCursor q)).
Proof.
  intros H. rewrite !cursorHandler_eq.
  change (cursorPageSize (withoutCursor q)) with (cursorPageSize q).
  rewrite (filter_ext_bool _ _ db (λ r, cursorTest_without q r H)).
  by destruct (cursorPageSize q).
Qed.

Lemma partial_not_complete q :
  (cursorCreatedAtOf q ≠ None ∧ Number_isInteger (cursorIdOf q) = false)
  ∨ (cursorCreatedAtOf q = None ∧ cursorIdOf q ≠ None) →
  cursorComplete q = false.
Proof.
  unfold cursorComplete. intros [[_ ->]|[-> _]]; [apply andb_false_r|done].
Qed.

End PartialCursor.

(** C4: a keyset request that carries only one half of the cursor (a
    [cursorCreatedAt] without an integer [cursorId], or a [cursorId] without a
    [cursorCreatedAt]) prepares the statement and binds the parameters of the
    same request without any cursor, so no bound is applied; it is answered
    with the same rows and the same [nextCursor], and it is answered whenever
    the page size is a number. *)
Theorem partial_cursor_is_page_one (like : string → string → bool)
    (db : list UserRow) (t0 t1 : Z) (q : CursorQuery) :
  (cursorCreatedAtOf q ≠ None ∧ Number_isInteger (cursorIdOf q) = false)
  ∨ (cursorCreatedAtOf q = None ∧ cursorIdOf q ≠ None) →
  cursorWhere q = cursorWhere (withoutCursor q) ∧
  p_cursorCreatedAt (snd (cursorWhere q)) = None ∧
  p_cursorId (snd (cursorWhere q)) = None ∧
  (cursorCond ∉ fst (cursorWhere q)) ∧
  rowsOf (cursorHandler like db t0 t1 q)
  = rowsOf (cursorHandler like db t0 t1 (withoutCursor q)) ∧
  (∀ n, cursorPageSize q = JInt n →
     ∃ res res0,
       cursorHandler like db t0 t1 q = inr res ∧
       cursorHandler like db t0 t1 (withoutCursor q) = inr res0 ∧
       cr_rows res = cr_rows res0 ∧
       nextCursor res = nextCursor res0).
Proof.
  intros Hpartial. pose proof (partial_not_complete q Hpartial) as Hnc.
  split; [by apply cursorWhere_without|].
  split; [rewrite cursorWhere_cases; simpl; by rewrite Hnc|].
  split; [rewrite cursorWhere_cases; simpl; by rewrite Hnc|].
  split.
  { rewrite cursorWhere_cases. simpl. rewrite Hnc. unfold cursorWhereStrings.
    destruct (bool_decide _ || bool_decide _), (cursorSearchGiven q); simpl;
      rewrite ?elem_of_cons, elem_of_nil; intros H;
      repeat (destruct H as [H|H]; [by vm_compute in H|]); done. }
  split; [by apply rowsOf_without|].
  intros n Hn.
  pose proof (rowsOf_without like db t0 t1 q Hnc) as Hrows.
  rewrite !cursorHandler_eq in *.
  change (cursorPageSize (withoutCursor q)) with (cursorPageSize q) in *.
  rewrite Hn in *. simpl in Hrows. injection Hrows as Hrows.
  eexists _, _. split; [reflexivity|]. split; [reflexivity|].
  split; [exact Hrows|]. by rewrite !nextCursor_last, Hrows.
Qed.

Lemma partial_cursor_is_page_one_witness :
  rowsOf (cursorHandler sqliteLike sampleDb 0 1 samplePartialQuery)
  = rowsOf (cursorHandler sqliteLike sampleDb 0 1 (withoutCursor samplePartialQuery)).
Proof.
  destruct (partial_cursor_is_page_one sqliteLike sampleDb 0 1 samplePartialQuery)
    as (_ & _ & _ & _ & H & _).
  - left. split; [discriminate|reflexivity].
  - exact H.
Defined.

(** C10: [meta.usedCursor] is [null] exactly when the handler's
    [cursorCreatedAt] is [null], that is when the query carries no
    [cursorCreatedAt] or an empty one; otherwise it holds that value with
    whatever [cursorId] parsed to.  So a request with a [cursorCreatedAt] and
    no integer [cursorId] reports a used cursor although its rows are the
    rows of the request without a cursor. *)
Theorem usedCursor_follows_createdAt (like : string → string → bool)
    (db : list UserRow) (t0 t1 : Z) (q : CursorQuery) (n : Z) :
  cursorPageSize q = JInt n →
  ∃ res,
    cursorHandler like db t0 t1 q = inr res ∧
    (usedCursor (cr_meta res) = None ↔ cursorCreatedAtOf q = None) ∧
    (cursorCreatedAtOf q = None ↔
       cq_cursorCreatedAt q = None ∨ cq_cursorCreatedAt q = Some EmptyString) ∧
    (∀ c, cursorCreatedAtOf q = Some c →
       usedCursor (cr_meta res)
       = Some {| uc_cursorCreatedAt := c; uc_cursorId := cursorIdOf q |}) ∧
    (∀ c, cursorCreatedAtOf q = Some c →
       Number_isInteger (cursorIdOf q) = false →
       usedCursor (cr_meta res) ≠ None ∧
       cursorWhere q = cursorWhere (withoutCursor q) ∧
       inr (cr_rows res) = rowsOf (cursorHandler like db t0 t1 (withoutCursor q))).
Proof.
  intros Hn. eexists. split.
  { rewrite cursorHandler_eq, Hn. reflexivity. }
  simpl. split; [|split; [|split]].
  - destruct (cursorCreatedAtOf q); split; done.
  - unfold cursorCreatedAtOf, orNull.
    destruct (cq_cursorCreatedAt q) as [[|a s]|]; simpl; split; auto;
      intros [|]; done.
  - by intros c ->.
  - intros c Hc Hint.
    assert (Hnc : cursorComplete q = false).
    { apply partial_not_complete. left. by rewrite Hc. }
    split; [by rewrite Hc|]. split; [by apply cursorWhere_without|].
    rewrite <- (rowsOf_without like db t0 t1 q Hnc), cursorHandler_eq, Hn.
    reflexivity.
Qed.

Lemma usedCursor_follows_createdAt_witness :
  ∃ res,
    cursorHandler sqliteLike sampleDb 0 1 samplePartialQuery = inr res ∧
    usedCursor (cr_meta res)
    = Some {| uc_cursorCreatedAt := "2026-02-01T00:02:00.000Z"; uc_cursorId := None |} ∧
    inr (cr_rows res)
    = rowsOf (cursorHandler sqliteLike sampleDb 0 1 (withoutCursor samplePartialQuery)).
Proof.
  destruct (usedCursor_follows_createdAt sqliteLike sampleDb 0 1 samplePartialQuery 2)
    as (res & Hres & _ & _ & Hused & Hrows); [reflexivity|].
  exists res. split; [exact Hres|]. split.
  - apply Hused. reflexivity.
  - apply (Hrows "2026-02-01T00:02:00.000Z"); reflexivity.
Defined.

(** ** The client's request sequencer *)

Section Sequencer.

Implicit Types (st : Client) (evs : list Event) (t : Z).

Lemma foldr_max_base (a b : Z) (l : list Z) :
  a ≤ b → Z.max b (foldr Z.max a l) = foldr Z.max b l.
Proof.
  intros Hab. induction l as [|x l IH]; simpl; [lia|].
  rewrite <- IH. lia.
Qed.

Lemma settle_keeps_reqId st t o elapsed :
  reqIdRef (step st (Settle t o elapsed)) = reqIdRef st.
Proof.
  unfold step, fetchData_settle, tryBlock, catchBlock.
  destruct o as [json|e]; repeat case_bool_decide; done.
Qed.

(** [reqIdRef.current] is the highest request id handed out so far. *)
Lemma reqIdRef_highest evs st :
  reqIdRef (run evs st) = foldr Z.max (reqIdRef st) (issued evs st).
Proof.
  revert st. induction evs as [|ev evs IH]; intros st; [done|].
  unfold run in *. destruct ev as [|t o elapsed]; simpl.
  - rewrite IH. simpl. rewrite foldr_max_base; [done|lia].
  - rewrite IH. f_equal. apply settle_keeps_reqId.
Qed.

Lemma reqIdRef_highestIssued evs :
  reqIdRef (run evs initialClient) = highestIssued evs initialClient.
Proof. apply reqIdRef_highest. Qed.

(** Request ids are handed out in strictly increasing order. *)
Lemma issued_increasing evs st :
  StronglySorted Z.lt (issued evs st) ∧ Forall (Z.lt (reqIdRef st)) (issued evs st).
Proof.
  revert st. induction evs as [|ev evs IH]; intros st; simpl.
  - split; constructor.
  - destruct ev as [|t o elapsed].
    + destruct (IH (fetchData_begin st).1) as [Hs Hall]. simpl in *.
      split.
      * constructor; [done|]. done.
      * constructor; [lia|]. eapply Forall_impl; [exact Hall|]. simpl. lia.
    + destruct (IH (step st (Settle t o elapsed))) as [Hs Hall].
      by rewrite settle_keeps_reqId in Hall.
Qed.

Lemma applied_changes json elapsed st : applied json elapsed st ≠ st.
Proof.
  intros H. apply (f_equal (λ s, length (calls s))) in H.
  simpl in H. rewrite length_app in H. simpl in H. lia.
Qed.

Lemma settle_current st t json elapsed :
  t = reqIdRef st →
  fetchData_settle t (Resolved json) elapsed st = inr (applied json elapsed st).
Proof.
  intros ->. unfold fetchData_settle, tryBlock.
  by rewrite bool_decide_eq_false_2 by auto.
Qed.

Lemma settle_stale st t json elapsed :
  t ≠ reqIdRef st →
  fetchData_settle t (Resolved json) elapsed st = inr st.
Proof.
  intros Hne. unfold fetchData_settle, tryBlock.
  by rewrite bool_decide_eq_true_2.
Qed.

End Sequencer.

(** C1: after any sequence of dispatches and settlements, a response writes
    the component state exactly when its request id is the highest one handed
    out so far: then the state holds the response, otherwise nothing at all
    changes.  With ids 1, 2, 3 issued and responses arriving in the order
    3, 1, 2, the third response is applied and the other two leave the state
    as it is. *)
Theorem latest_response_wins (evs : list Event) (t : Z) (json : ApiRes)
    (elapsed : string) :
  let st := run evs initialClient in
  let highest := highestIssued evs initialClient in
  (fetchData_settle t (Resolved json) elapsed st ≠ inr st ↔ t = highest) ∧
  (t = highest →
     fetchData_settle t (Resolved json) elapsed st = inr (applied json elapsed st) ∧
     rows (ui (applied json elapsed st)) = res_rows json ∧
     totalCount (ui (applied json elapsed st)) = res_totalCount json ∧
     apiResRequest (ui (applied json elapsed st)) = Some (res_request json) ∧
     meta (ui (applied json elapsed st)) = Some (res_meta json)) ∧
  (t ≠ highest → fetchData_settle t (Resolved json) elapsed st = inr st) ∧
  (∀ j1 j2 j3 e1 e2 e3,
     let s3 := run [Dispatch; Dispatch; Dispatch] initialClient in
     let a := step s3 (Settle 3 (Resolved j3) e3) in
     issued [Dispatch; Dispatch; Dispatch] initialClient = [1; 2; 3] ∧
     a = applied j3 e3 s3 ∧
     step a (Settle 1 (Resolved j1) e1) = a ∧
     step a (Settle 2 (Resolved j2) e2) = a ∧
     run [Dispatch; Dispatch; Dispatch; Settle 3 (Resolved j3) e3;
          Settle 1 (Resolved j1) e1; Settle 2 (Resolved j2) e2] initialClient = a).
Proof.
  intros st highest.
  assert (Hcur : reqIdRef st = highest) by apply reqIdRef_highestIssued.
  split; [|split; [|split]].
  - split.
    + intros Hne. destruct (decide (t = highest)) as [|Hstale]; [done|].
      exfalso. apply Hne, settle_stale. congruence.
    + intros ->. rewrite settle_current by done.
      intros [= H]. by apply applied_changes in H.
  - intros ->. by rewrite settle_current.
  - intros Hne. apply settle_stale. congruence.
  - intros. repeat split; reflexivity.
Qed.

Lemma latest_response_wins_witness :
  fetchData_settle 2 (Resolved sampleRes) "12.5" (run [Dispatch; Dispatch] initialClient)
  = inr (applied sampleRes "12.5" (run [Dispatch; Dispatch] initialClient)) ∧
  fetchData_settle 1 (Resolved sampleRes) "12.5" (run [Dispatch; Dispatch] initialClient)
  = inr (run [Dispatch; Dispatch] initialClient).
Proof.
  destruct (latest_response_wins [Dispatch; Dispatch] 2 sampleRes "12.5")
    as (_ & H2 & _ & _).
  destruct (latest_response_wins [Dispatch; Dispatch] 1 sampleRes "12.5")
    as (_ & _ & H1 & _).
  split.
  - apply H2. reflexivity.
  - apply H1. vm_compute. discriminate.
Defined.

(** ** Failures of the network call *)

(** C2, as the code has it: whatever the request id, a rejection named
    [AbortError] is dropped without a trace and leaves the client as it was;
    any other rejection is written to the console with [console.error] and
    then dropped, the component state staying as it was.  [fetchData] never
    rejects: no failure reaches its caller. *)
Theorem fetch_failure_logged (st : Client) (t : Z) (e : FetchError) (elapsed : string) :
  (e_name e = Some "AbortError" →
     fetchData_settle t (Rejected e) elapsed st = inr st) ∧
  (e_name e ≠ Some "AbortError" →
     fetchData_settle t (Rejected e) elapsed st = inr (console_error e st) ∧
     ui (console_error e st) = ui st ∧
     calls (console_error e st) = calls st ++ [ConsoleError e]) ∧
  (∀ o, ∃ st', fetchData_settle t o elapsed st = inr st').
Proof.
  split; [|split].
  - intros Hn. unfold fetchData_settle, catchBlock. simpl.
    by rewrite bool_decide_eq_true_2.
  - intros Hn. unfold fetchData_settle, catchBlock. simpl.
    by rewrite bool_decide_eq_false_2.
  - intros o. unfold fetchData_settle, tryBlock, catchBlock.
    destruct o; repeat case_bool_decide; eauto.
Qed.

Lemma fetch_failure_logged_witness :
  fetchData_settle 1 (Rejected networkError) "0.0" (run [Dispatch] initialClient)
  = inr (console_error networkError (run [Dispatch] initialClient)).
Proof.
  destruct (fetch_failure_logged (run [Dispatch] initialClient) 1 networkError "0.0")
    as (_ & H & _).
  apply H. vm_compute. discriminate.
Defined.

(** The failure of the current, uncancelled request is not handed to the
    caller: request 1 is the only one issued, its controller is not aborted,
    its network call rejects with a [TypeError], and the promise of
    [fetchData] is fulfilled all the same, the error having gone to the
    console. *)
Lemma current_failure_not_surfaced :
  let st := run [Dispatch] initialClient in
  issued [Dispatch] initialClient = [1] ∧
  reqIdRef st = 1 ∧
  abortRef st = Some 0%nat ∧
  controllers st !! 0%nat = Some false ∧
  e_name networkError ≠ Some "AbortError" ∧
  fetchData_settle 1 (Rejected networkError) "0.0" st
  = inr (console_error networkError st) ∧
  ¬ (∃ e, fetchData_settle 1 (Rejected networkError) "0.0" st = inl e).
Proof.
  vm_compute. repeat split; try discriminate. intros [e He]. discriminate.
Qed.

(** * Properties of the rest of the code *)

(** ** Count cache: lifetime, overwriting, other keys *)

(** X1: an entry lives for 30000 ms, the last one included: a lookup after a
    write returns the value exactly when at most 30000 ms have passed, and
    otherwise returns [null] and leaves the map without the key. *)
Theorem countCache_lifetime (c : gmap string CacheEntry) (key : string) (v t0 t : Z) :
  ((getCountCache t key (setCountCache t0 key v c)).1 = Some v ↔ t ≤ t0 + 30000) ∧
  (t0 + 30000 < t →
     getCountCache t key (setCountCache t0 key v c) = (None, delete key c)).
Proof.
  unfold getCountCache, setCountCache. rewrite lookup_insert_eq. simpl.
  unfold COUNT_CACHE_TTL_MS.
  destruct (Z.ltb_spec (t0 + 30000) t) as [Hlt|Hge]; simpl.
  - split; [split; [done|intros; exfalso; lia]|].
    intros _. by rewrite delete_insert_eq.
  - split; [split; [done|done]|intros; lia].
Qed.

Lemma countCache_lifetime_witness :
  getCountCache 31001 "k" (setCountCache 1000 "k" 7 ∅) = (None, delete "k" ∅).
Proof.
  destruct (countCache_lifetime ∅ "k" 7 1000 31001) as [_ H]. apply H. lia.
Defined.

(** X2: a second write to a key replaces the entry, it does not add one: the
    map is the one the second write alone would give, and a lookup returns
    the second value for 30000 ms from the second write, also after the first
    entry's time is up. *)
Theorem countCache_overwrite (c : gmap string CacheEntry) (key : string)
    (v1 v2 t1 t2 t : Z) :
  t ≤ t2 + 30000 →
  setCountCache t2 key v2 (setCountCache t1 key v1 c) = setCountCache t2 key v2 c ∧
  size (setCountCache t2 key v2 (setCountCache t1 key v1 c))
  = size (setCountCache t1 key v1 c) ∧
  (getCountCache t key (setCountCache t2 key v2 (setCountCache t1 key v1 c))).1
  = Some v2.
Proof.
  intros Ht.
  assert (E : setCountCache t2 key v2 (setCountCache t1 key v1 c)
              = setCountCache t2 key v2 c).
  { unfold setCountCache. apply insert_insert_eq. }
  split; [done|]. split.
  - rewrite E. unfold setCountCache.
    destruct (c !! key) eqn:Hk.
    + rewrite !map_size_insert_Some; done.
    + rewrite !map_size_insert_None; done.
  - rewrite E, getCountCache_fresh; [done|]. unfold COUNT_CACHE_TTL_MS. lia.
Qed.

Lemma countCache_overwrite_witness :
  (getCountCache 40000 "k" (setCountCache 20000 "k" 9 (setCountCache 1000 "k" 7 ∅))).1
  = Some 9.
Proof.
  destruct (countCache_overwrite ∅ "k" 7 9 1000 20000 40000) as (_ & _ & H); [lia|].
  exact H.
Defined.

Lemma applyCacheOp_other_key (c : gmap string CacheEntry) (op : CacheOp) (k : string) :
  cacheOpKey op ≠ k → applyCacheOp c op !! k = c !! k.
Proof.
  destruct op as [now key|now key v]; simpl; intros Hne.
  - unfold getCountCache. destruct (c !! key) as [hit|]; [|done].
    destruct (expiresAt hit <? now); [|done]. simpl. by apply lookup_delete_ne.
  - unfold setCountCache. by apply lookup_insert_ne.
Qed.

(** X3: lookups and writes of other keys never touch a key: after any
    sequence of cache calls none of which names [k], the map holds for [k]
    what it held before (so an expired entry stays until its own key is
    looked up or written), and a lookup of [k] returns what it would have
    returned before. *)
Theorem countCache_other_keys (ops : list CacheOp) (c : gmap string CacheEntry)
    (k : string) (now : Z) :
  Forall (λ op, cacheOpKey op ≠ k) ops →
  runCacheOps ops c !! k = c !! k ∧
  (getCountCache now k (runCacheOps ops c)).1 = (getCountCache now k c).1.
Proof.
  intros Hops.
  assert (E : runCacheOps ops c !! k = c !! k).
  { revert c. induction Hops as [|op ops Hop _ IH]; intros c; [done|].
    unfold runCacheOps in *. simpl. rewrite IH. by apply applyCacheOp_other_key. }
  split; [done|]. unfold getCountCache. rewrite E.
  destruct (c !! k) as [hit|]; [|done]. by destruct (expiresAt hit <? now).
Qed.

Lemma countCache_other_keys_witness :
  runCacheOps [CacheSet 5 "b" 1; CacheGet 99999 "b"] (setCountCache 0 "a" 3 ∅) !! "a"
  = setCountCache 0 "a" 3 ∅ !! "a".
Proof.
  destruct (countCache_other_keys [CacheSet 5 "b" 1; CacheGet 99999 "b"]
              (setCountCache 0 "a" 3 ∅) "a" 0) as [H _].
  - repeat constructor; discriminate.
  - exact H.
Defined.

(** ** Sort parsing: the echo *)


(** ** [GET /api/users]: what a page holds *)

Section UsersPage.

Variable like : string → string → bool.

Implicit Types (db : list UserRow) (q : UsersQuery).

Lemma usersRowsSent_window db clock cache q :
  1 ≤ q_pageSize q →
  usersRowsSent like db clock cache q
  = take (Z.to_nat (q_pageSize q))
      (drop (Z.to_nat ((q_page q - 1) * q_pageSize q))
         (merge_sort (orderLe (usersOrder q)) (List.filter (usersMatches like q) db))).
Proof.
  intros Hsize. unfold usersRowsSent.
  destruct (usersHandler_answers like db clock cache q) as (n & b & c' & ->).
  simpl. by apply users_window.
Qed.



End UsersPage.



(** ** [GET /api/users]: the total count and its cache *)

Section UsersCount.

Variable like : string → string → bool.

Implicit Types (db : list UserRow) (q : UsersQuery).


Lemma usersMatches_normalized q1 q2 r :
  normalized q1 = normalized q2 → usersMatches like q1 r = usersMatches like q2 r.
Proof.
  unfold normalized, usersMatches. intros [= Hst Hse].
  assert (q_status q1 = q_status q2) as ->.
  { destruct (q_status q1) as [[]|], (q_status q2) as [[]|]; done. }
  destruct (searchGiven (q_search q1)), (searchGiven (q_search q2));
    try done. by injection Hse as ->.
Qed.

Lemma usersMatchCount_normalized db q1 q2 :
  normalized q1 = normalized q2 →
  usersMatchCount like db q1 = usersMatchCount like db q2.
Proof.
  intros H. unfold usersMatchCount. f_equal.
  apply filter_ext_bool. intros r. by apply usersMatches_normalized.
Qed.


End UsersCount.





(** ** [GET /api/users]: walking the pages *)

Lemma concat_windows {A} (l : list A) (n k : nat) :
  concat ((λ p, take n (drop ((p - 1) * n) l)) <$> seq 1 k) = take (k * n) l.
Proof.
  induction k as [|k IH]; [done|].
  rewrite seq_S, fmap_app, concat_app, IH. simpl.
  rewrite app_nil_r, Nat.sub_0_r.
  rewrite take_take_drop. f_equal. lia.
Qed.

(** X8: over an unchanged table, the rows of pages 1, 2, ..., k of a request,
    put end to end, are the first [k * pageSize] rows of one list, the
    matching rows in the requested order; once [k * pageSize] reaches the
    number of matches they are that whole list, every matching row once. *)
Theorem users_pages_enumerate (like : string → string → bool) (db : list UserRow)
    (clocks : nat → Clock) (caches : nat → gmap string CacheEntry)
    (q : UsersQuery) (k : nat) :
  1 ≤ q_pageSize q →
  ∃ sorted,
    sorted ≡ₚ List.filter (usersMatches like q) db ∧
    StronglySorted (orderLe (usersOrder q)) sorted ∧
    concat ((λ p, usersRowsSent like db (clocks p) (caches p)
                    (withPage (Z.of_nat p) q)) <$> seq 1 k)
    = take (k * Z.to_nat (q_pageSize q)) sorted ∧
    ((length sorted ≤ k * Z.to_nat (q_pageSize q))%nat →
       concat ((λ p, usersRowsSent like db (clocks p) (caches p)
                       (withPage (Z.of_nat p) q)) <$> seq 1 k)
       = sorted).
Proof.
  intros Hsize.
  set (sorted := merge_sort (orderLe (usersOrder q))
                   (List.filter (usersMatches like q) db)).
  set (n := Z.to_nat (q_pageSize q)).
  assert (E : concat ((λ p, usersRowsSent like db (clocks p) (caches p)
                              (withPage (Z.of_nat p) q)) <$> seq 1 k)
              = take (k * n) sorted).
  { rewrite <- concat_windows. f_equal. apply list_fmap_ext.
    intros i p Hp. apply lookup_seq in Hp as [-> _].
    rewrite usersRowsSent_window by done. simpl. fold sorted n.
    do 2 f_equal. unfold n. nia. }
  exists sorted. split; [apply merge_sort_Permutation|].
  split; [apply StronglySorted_merge_sort; apply _|].
  split; [exact E|]. intros Hall. rewrite E. by apply take_ge.
Qed.

Lemma users_pages_enumerate_witness :
  concat ((λ p, usersRowsSent sqliteLike sampleDb sampleClock ∅
                  (withPage (Z.of_nat p) sampleUsersQuery)) <$> seq 1 2)
  ≡ₚ List.filter (usersMatches sqliteLike sampleUsersQuery) sampleDb.
Proof.
  destruct (users_pages_enumerate sqliteLike sampleDb (λ _, sampleClock) (λ _, ∅)
              sampleUsersQuery 2) as (sorted & Hperm & _ & _ & Hall); [simpl; lia|].
  rewrite Hall; [exact Hperm|]. rewrite Hperm. vm_compute. lia.
Defined.

(** ** [GET /api/users]: the sort a response reports *)



(** ** [GET /api/users-cursor]: page size and status *)

Section CursorEdges.

Variable like : string → string → bool.

Implicit Types (q : CursorQuery) (db : list UserRow).

Lemma cursorPageSize_cases q :
  match parseInt (Js.or_else (cq_pageSize q) "100") with
  | JNaN => cursorPageSize q = JNaN
  | JInt n => cursorPageSize q = JInt (Z.min (Z.max n 1) 10000)
  | JPosInf => cursorPageSize q = JInt 10000
  | JNegInf => cursorPageSize q = JInt 1
  end.
Proof. unfold cursorPageSize. by destruct (parseInt _). Qed.

End CursorEdges.

(** X9: the page size of a keyset request is 100 when the field is absent or
    empty, and otherwise the number its text starts with, brought into
    [1, 10000].  The request is answered exactly when there is such a
    number, and then with at most that many rows; a text that starts with no
    number makes the [LIMIT] [NaN], which the statement refuses. *)
Theorem cursor_pageSize_clamped (like : string → string → bool)
    (db : list UserRow) (t0 t1 : Z) (q : CursorQuery) :
  (Js.truthy (cq_pageSize q) = false → cursorPageSize q = JInt 100) ∧
  (∀ n, parseInt (Js.or_else (cq_pageSize q) "100") = JInt n →
     cursorPageSize q = JInt (Z.min (Z.max n 1) 10000)) ∧
  ((∃ res n, cursorHandler like db t0 t1 q = inr res ∧
             cursorPageSize q = JInt n ∧ 1 ≤ n ≤ 10000 ∧
             (length (cr_rows res) ≤ Z.to_nat n)%nat)
   ↔ parseInt (Js.or_else (cq_pageSize q) "100") ≠ JNaN) ∧
  (parseInt (Js.or_else (cq_pageSize q) "100") = JNaN →
     cursorHandler like db t0 t1 q = inl DatatypeMismatch).
Proof.
  pose proof (cursorPageSize_cases q) as Hcases.
  split; [|split; [|split]].
  - intros Hf. unfold cursorPageSize.
    destruct (cq_pageSize q) as [[|a s]|]; try done.
  - intros n Hn. by rewrite Hn in Hcases.
  - rewrite cursorHandler_eq. split.
    + intros (res & n & Hres & Hn & _) Hnan. rewrite Hnan in Hcases. congruence.
    + intros Hnum.
      assert (∃ n, cursorPageSize q = JInt n) as [n Hn].
      { destruct (parseInt _); try done; eauto. }
      pose proof (cursorPageSize_range q n Hn) as Hrange.
      rewrite Hn. eexists _, n. split; [reflexivity|]. split; [done|].
      split; [done|]. simpl. unfold sqlLimit.
      destruct (Z.ltb_spec n 0); [lia|]. rewrite length_take. lia.
  - intros Hnan. rewrite cursorHandler_eq. rewrite Hnan in Hcases.
    by rewrite Hcases.
Qed.

Lemma cursor_pageSize_clamped_witness :
  cursorPageSize {| cq_pageSize := Some "50000"; cq_search := None; cq_status := None;
                    cq_cursorCreatedAt := None; cq_cursorId := None |} = JInt 10000.
Proof.
  destruct (cursor_pageSize_clamped sqliteLike [] 0 0
              {| cq_pageSize := Some "50000"; cq_search := None; cq_status := None;
                 cq_cursorCreatedAt := None; cq_cursorId := None |})
    as (_ & H & _).
  apply (H 50000). reflexivity.
Defined.

(** X10: a [status] other than [ACTIVE] and [INACTIVE] is not an error and
    not a filter: the request prepares the statement, binds the parameters
    and is answered with the rows of the same request without [status],
    while [meta.status] still reports the text that was sent. *)
Theorem cursor_unknown_status_ignored (like : string → string → bool)
    (db : list UserRow) (t0 t1 : Z) (q : CursorQuery) :
  orNull (cq_status q) ≠ Some "ACTIVE" →
  orNull (cq_status q) ≠ Some "INACTIVE" →
  cursorWhere q = cursorWhere (withCursorStatus None q) ∧
  p_status (snd (cursorWhere q)) = None ∧
  rowsOf (cursorHandler like db t0 t1 q)
  = rowsOf (cursorHandler like db t0 t1 (withCursorStatus None q)) ∧
  (∀ res, cursorHandler like db t0 t1 q = inr res →
     cm_status (cr_meta res) = orNull (cq_status q)).
Proof.
  intros Ha Hi.
  assert (Hw : cursorWhere q = cursorWhere (withCursorStatus None q)).
  { rewrite !cursorWhere_cases. simpl.
    rewrite !bool_decide_eq_false_2 by done. reflexivity. }
  split; [done|]. split.
  { rewrite cursorWhere_cases. simpl. by rewrite !bool_decide_eq_false_2. }
  split.
  - unfold cursorHandler. rewrite <- Hw. destruct (cursorWhere q) as [w p].
    by destruct (queryAll like db _ p).
  - intros res. rewrite cursorHandler_eq.
    destruct (cursorPageSize q); try done. by intros [= <-].
Qed.

Lemma cursor_unknown_status_ignored_witness :
  rowsOf (cursorHandler sqliteLike sampleDb 0 1 (withCursorStatus (Some "BOGUS") sampleFirstPage))
  = rowsOf (cursorHandler sqliteLike sampleDb 0 1 sampleFirstPage).
Proof.
  destruct (cursor_unknown_status_ignored sqliteLike sampleDb 0 1
              (withCursorStatus (Some "BOGUS") sampleFirstPage)) as (_ & _ & H & _).
  - discriminate.
  - discriminate.
  - exact H.
Defined.

(** ** [GET /api/users-cursor]: following [nextCursor] *)

Section KeysetChain.

Variable like : string → string → bool.

Implicit Types (q : CursorQuery) (r : UserRow) (db : list UserRow).





Lemma list_filter_ext_in {A} (f g : A → bool) (l : list A) :
  (∀ x, x ∈ l → f x = g x) → List.filter f l = List.filter g l.
Proof.
  intros H. apply List.filter_ext_in. intros x Hx. apply H. by apply list_elem_of_In.
Qed.













End KeysetChain.



(** ** Trimming twice *)

Section Trim.














End Trim.

(** ** The search text, trimmed by the client and again by the server *)

Section SearchTrim.

Variable like : string → string → bool.




End SearchTrim.


(** ** The request sequencer: ids, controllers, stale settlements *)

Section SequencerMore.

Implicit Types (st : Client) (evs : list Event).

Lemma sequencerInv_initial : sequencerInv initialClient.
Proof. repeat split; try done; simpl; lia. Qed.

Lemma settle_keeps_refs st t o elapsed :
  abortRef (step st (Settle t o elapsed)) = abortRef st ∧
  controllers (step st (Settle t o elapsed)) = controllers st.
Proof.
  unfold step, fetchData_settle, tryBlock, catchBlock.
  destruct o as [json|e]; repeat case_bool_decide; done.
Qed.

Lemma sequencerInv_step st ev : sequencerInv st → sequencerInv (step st ev).
Proof.
  intros (Hpos & Hlen & Habort & Hctl).
  destruct ev as [|t o elapsed].
  - unfold sequencerInv, step, fetchData_begin. simpl. rewrite Habort.
    destruct (decide (reqIdRef st = 0)) as [H0|Hn0].
    + rewrite H0 in Hlen. simpl in Hlen.
      destruct (controllers st) as [|??] eqn:Hc; [|done]. simpl.
      split; [lia|]. split; [rewrite H0; done|].
      rewrite H0. simpl. split; [done|].
      intros [|i] b; simpl; [|done]. intros [= <-]. done.
    + assert (Hcur : (Z.to_nat (reqIdRef st) - 1 < length (controllers st))%nat) by lia.
      split; [lia|]. rewrite length_app, length_insert. simpl.
      split; [lia|].
      destruct (decide (reqIdRef st + 1 = 0)) as [|_]; [lia|].
      split; [f_equal; lia|].
      intros i b Hi.
      destruct (decide (i = length (controllers st))) as [->|Hne].
      * rewrite lookup_app_r in Hi by (rewrite length_insert; lia).
        rewrite length_insert, Nat.sub_diag in Hi. injection Hi as <-.
        split; [done|]. done.
      * assert (i < length (controllers st))%nat.
        { apply lookup_lt_Some in Hi. rewrite length_app, length_insert in Hi.
          simpl in Hi. lia. }
        rewrite lookup_app_l in Hi by (rewrite length_insert; lia).
        split; [|intros [=]; lia].
        intros ->. exfalso.
        destruct (decide (i = Z.to_nat (reqIdRef st) - 1)%nat) as [->|Hne'].
        -- rewrite list_lookup_insert_eq in Hi by done. done.
        -- rewrite list_lookup_insert_ne in Hi by done.
           apply Hctl in Hi. destruct Hi as [Hi _]. specialize (Hi eq_refl).
           rewrite Habort in Hi. destruct (decide (reqIdRef st = 0)); congruence.
  - destruct (settle_keeps_refs st t o elapsed) as [Ha Hc].
    unfold sequencerInv. rewrite settle_keeps_reqId, Ha, Hc. done.
Qed.

Lemma sequencerInv_run evs st : sequencerInv st → sequencerInv (run evs st).
Proof.
  revert st. induction evs as [|ev evs IH]; intros st Hinv; [done|].
  apply (IH (step st ev)). by apply sequencerInv_step.
Qed.

Lemma issued_from evs st :
  issued evs st = (λ k, reqIdRef st + Z.of_nat k) <$> seq 1 (dispatchCount evs).
Proof.
  revert st. induction evs as [|ev evs IH]; intros st; [done|].
  destruct ev as [|t o elapsed].
  - change (issued (Dispatch :: evs) st)
      with (myReqId (snd (fetchData_begin st)) :: issued evs (fst (fetchData_begin st))).
    rewrite IH. cbn [dispatchCount seq fmap list_fmap]. simpl.
    change (Z.of_nat 1) with 1. apply (f_equal (cons (reqIdRef st + 1))).
    rewrite <- (fmap_S_seq 1), <- list_fmap_compose. apply list_fmap_ext.
    intros i k _. simpl. lia.
  - change (issued (Settle t o elapsed :: evs) st)
      with (issued evs (step st (Settle t o elapsed))).
    rewrite IH. by rewrite settle_keeps_reqId.
Qed.

Lemma cannotApply_ui st ev :
  cannotApply st ev →
  ui (step st ev) = ui st ∧ reqIdRef (step st ev) = reqIdRef st.
Proof.
  destruct ev as [|t [json|e] elapsed]; simpl; [done|..].
  - intros Hne. by rewrite settle_stale.
  - intros _. unfold fetchData_settle, catchBlock. simpl.
    by case_bool_decide.
Qed.

Lemma cannotApply_run evs st :
  (∀ st', reqIdRef st' = reqIdRef st → Forall (cannotApply st') evs) →
  ui (run evs st) = ui st ∧ reqIdRef (run evs st) = reqIdRef st.
Proof.
  revert st. induction evs as [|ev evs IH]; intros st Hall; [done|].
  assert (Hev : cannotApply st ev).
  { specialize (Hall st eq_refl). by inv Hall. }
  destruct (cannotApply_ui st ev Hev) as [Hui Hid].
  unfold run. simpl. fold (run evs (step st ev)).
  destruct (IH (step st ev)) as [Hui' Hid'].
  - intros st' Hst'. specialize (Hall st' (eq_trans Hst' Hid)). by inv Hall.
  - split; congruence.
Qed.

End SequencerMore.

Lemma reqIdRef_run (evs : list Event) (st : Client) :
  reqIdRef (run evs st) = reqIdRef st + Z.of_nat (dispatchCount evs).
Proof.
  revert st. induction evs as [|ev evs IH]; intros st; [simpl; lia|].
  change (run (ev :: evs) st) with (run evs (step st ev)). rewrite IH.
  destruct ev as [|t o elapsed].
  - cbn [dispatchCount]. unfold step, fetchData_begin. simpl. lia.
  - rewrite settle_keeps_reqId. done.
Qed.

(** X13: in a session of [fetchData] invocations and settlements, the k-th
    invocation gets request id k and creates the k-th controller; the
    controller in [abortRef] is the newest one, and it is the only one that
    has not been aborted. *)
Theorem newest_controller_only_live (evs : list Event) :
  let st := run evs initialClient in
  issued evs initialClient = Z.of_nat <$> seq 1 (dispatchCount evs) ∧
  reqIdRef st = Z.of_nat (dispatchCount evs) ∧
  length (controllers st) = dispatchCount evs ∧
  abortRef st = (if decide (dispatchCount evs = 0)%nat then None
                 else Some (dispatchCount evs - 1)%nat) ∧
  ∀ i b, controllers st !! i = Some b → (b = false ↔ abortRef st = Some i).
Proof.
  intros st.
  destruct (sequencerInv_run evs initialClient sequencerInv_initial)
    as (Hpos & Hlen & Habort & Hctl).
  fold st in Hpos, Hlen, Habort, Hctl.
  assert (Hid : reqIdRef st = Z.of_nat (dispatchCount evs)).
  { unfold st. rewrite reqIdRef_run. simpl. lia. }
  split.
  { rewrite issued_from. apply list_fmap_ext. intros i k _. simpl. lia. }
  split; [done|]. split; [lia|]. split; [|done].
  rewrite Habort, Hid.
  destruct (decide (Z.of_nat (dispatchCount evs) = 0)),
    (decide (dispatchCount evs = 0)%nat); try lia; [done|].
  f_equal. lia.
Qed.

(** X14: once the answer to the newest request has been applied, the
    settlements of the older requests, in any order, and failures of any
    request leave the displayed rows, count, echo, meta and timing exactly as
    that answer set them, and the request counter where it was. *)
Theorem older_settlements_inert (evs later : list Event) (json : ApiRes)
    (elapsed : string) :
  let st := run evs initialClient in
  let st1 := step st (Settle (reqIdRef st) (Resolved json) elapsed) in
  Forall (cannotApply st) later →
  ui st1 = {| rows := res_rows json; totalCount := res_totalCount json;
              apiResRequest := Some (res_request json);
              meta := Some (res_meta json); fetchTotalLog := elapsed |} ∧
  ui (run later st1) = ui st1 ∧
  reqIdRef (run later st1) = reqIdRef st.
Proof.
  intros st st1 Hlater.
  assert (Hst1 : st1 = applied json elapsed st).
  { unfold st1, step. by rewrite settle_current. }
  split; [by rewrite Hst1|].
  destruct (cannotApply_run later st1) as [Hui Hid].
  - intros st' Hst'. eapply Forall_impl; [exact Hlater|].
    intros ev. unfold cannotApply. rewrite Hst', Hst1. simpl.
    destruct ev as [|t [?|?] ?]; done.
  - split; [done|]. rewrite Hid, Hst1. done.
Qed.

Lemma older_settlements_inert_witness :
  let st1 := step (run [Dispatch; Dispatch] initialClient)
                  (Settle 2 (Resolved sampleRes) "12.5") in
  let later := [Settle 1 (Resolved sampleOlderRes) "40.0";
                Settle 1 (Rejected networkError) "40.0";
                Settle 2 (Rejected networkError) "41.0"] in
  Forall (cannotApply (run [Dispatch; Dispatch] initialClient)) later ∧
  rows (ui (run later st1)) = res_rows sampleRes ∧
  res_rows sampleOlderRes ≠ res_rows sampleRes.
Proof.
  assert (H : Forall (cannotApply (run [Dispatch; Dispatch] initialClient))
                [Settle 1 (Resolved sampleOlderRes) "40.0";
                 Settle 1 (Rejected networkError) "40.0";
                 Settle 2 (Rejected networkError) "41.0"]).
  { repeat constructor. vm_compute. discriminate. }
  split; [exact H|]. split.
  - destruct (older_settlements_inert [Dispatch; Dispatch] _ sampleRes "12.5" H)
      as (H1 & H2 & _).
    change (reqIdRef (run [Dispatch; Dispatch] initialClient)) with 2 in H1, H2.
    rewrite H2, H1. reflexivity.
  - vm_compute. discriminate.
Defined.

(** ** The page's controls *)

Section Controls.

Implicit Types (q : QueryState) (a : Action).

Lemma ceilDiv_spec (a b : Z) :
  0 < b → (ceilDiv a b - 1) * b < a ∧ a ≤ ceilDiv a b * b.
Proof.
  intros Hb. unfold ceilDiv.
  pose proof (Z.div_mod (- a) b ltac:(lia)) as Hdm.
  pose proof (Z.mod_pos_bound (- a) b Hb) as Hmod.
  nia.
Qed.

Lemma ceilDiv_least (a b n : Z) : 0 < b → a ≤ n * b → ceilDiv a b ≤ n.
Proof. intros Hb Hn. destruct (ceilDiv_spec a b Hb) as [Hlo _]. nia. Qed.

Lemma ceilDiv_pos (a b : Z) : 0 < b → 1 ≤ a → 1 ≤ ceilDiv a b.
Proof. intros Hb Ha. destruct (ceilDiv_spec a b Hb) as [_ Hhi]. nia. Qed.

Lemma totalPages_spec (totalCount pageSize : Z) :
  1 ≤ pageSize →
  1 ≤ totalPages totalCount pageSize ∧
  totalCount ≤ totalPages totalCount pageSize * pageSize ∧
  (1 < totalPages totalCount pageSize →
   (totalPages totalCount pageSize - 1) * pageSize < totalCount).
Proof.
  intros Hps. unfold totalPages.
  destruct (ceilDiv_spec totalCount pageSize ltac:(lia)) as [Hlo Hhi].
  split; [lia|]. split; [nia|]. intros H1.
  rewrite Z.max_r by lia. done.
Qed.

Lemma elem_of_pageOptions (tp p : Z) :
  p ∈ pageOptions tp ↔ ∃ k, 1 ≤ k ≤ ceilDiv tp 100 ∧ p = k * 100.
Proof.
  unfold pageOptions. rewrite list_elem_of_fmap. split.
  - intros (i & -> & Hi). apply elem_of_seq in Hi.
    exists (Z.of_nat i + 1). split; [lia|done].
  - intros (k & Hk & ->). exists (Z.to_nat (k - 1)). split.
    + f_equal. lia.
    + apply elem_of_seq. lia.
Qed.

Lemma pageSizeOptions_range (n : Z) : n ∈ pageSizeOptions → 1 ≤ n ≤ 1000000.
Proof.
  unfold pageSizeOptions. rewrite !elem_of_cons, elem_of_nil.
  intros [->|[->|[->|[->|[->|[->|[->|[->|[]]]]]]]]]; lia.
Qed.

Lemma onSortChanged_fields columnState q :
  s_pageSize (onSortChanged columnState q) = s_pageSize q ∧
  s_status (onSortChanged columnState q) = s_status q ∧
  s_search (onSortChanged columnState q) = s_search q ∧
  (s_page (onSortChanged columnState q) = s_page q ∨
   s_page (onSortChanged columnState q) = 1).
Proof.
  unfold onSortChanged.
  destruct (List.find _ columnState) as [c|]; [|auto].
  destruct (negb _ || negb _); simpl; auto.
Qed.

Lemma wellFormed_handle totalCount a q :
  wellFormed q → offered totalCount q a → wellFormed (handle totalCount a q).
Proof.
  intros (Hp & Hps & Hst) Hoff. unfold wellFormed.
  destruct a as [v|v|v|cs| |v| ]; simpl in *; try done.
  - destruct (onSortChanged_fields cs q) as (-> & -> & _ & [-> | ->]); done.
  - unfold prevDisabled. destruct (s_page q <=? 1); simpl; [done|].
    split; [lia|done].
  - split; [|done]. apply elem_of_pageOptions in Hoff as (k & Hk & ->). lia.
  - destruct (nextDisabled _ _ _); simpl; [done|]. split; [lia|done].
Qed.

Lemma wellFormed_handleAll acts q :
  wellFormed q → allOffered acts q → wellFormed (handleAll acts q).
Proof.
  revert q. induction acts as [|[tc a] acts IH]; intros q Hq Hoff; [done|].
  destruct Hoff as [Ha Hrest]. simpl.
  apply IH; [by apply wellFormed_handle|done].
Qed.

Lemma QuerySchema_wellFormed q :
  wellFormed q →
  ∃ st, QuerySchema (fetchParams q)
        = Some {| q_page := s_page q; q_pageSize := s_pageSize q;
                  q_search := Js.trim (s_search q); q_status := st;
                  q_sort := s_sort q |} ∧
        from_option statusStr EmptyString st = s_status q.
Proof.
  intros (Hp & Hps & Hst). apply pageSizeOptions_range in Hps.
  unfold QuerySchema, fetchParams. cbn [u_page u_pageSize u_sort u_search u_status default from_option Datatypes.id].
  destruct (Z.leb_spec 1 (s_page q)); [|lia]. cbn [negb].
  destruct (Z.leb_spec 1 (s_pageSize q)); [|lia].
  destruct (Z.leb_spec (s_pageSize q) 1000000); [|lia]. cbn [negb andb].
  assert (Hsearch : default EmptyString
            (if Js.truthy (Some (Js.trim (s_search q)))
             then Some (Js.trim (s_search q)) else None) = Js.trim (s_search q)).
  { destruct (Js.trim (s_search q)); done. }
  cbn [default from_option Datatypes.id] in Hsearch. rewrite Hsearch.
  unfold statusOptions in Hst. rewrite !elem_of_cons, elem_of_nil in Hst.
  destruct Hst as [-> | [-> | [-> | []]]].
  - exists None. split; reflexivity.
  - exists (Some ACTIVE). split; reflexivity.
  - exists (Some INACTIVE). split; reflexivity.
Qed.

End Controls.

(** X15: whatever the user does with the controls (typing, choosing offered
    options, sorting in the grid, paging), the parameters [fetchData] sends
    pass [QuerySchema]: the page is at least 1, the page size is one of the
    offered sizes and within 1..1000000, the status is absent or one of the
    two values of the enum.  The server reads back the page, size and sort as
    they are on the page, and the search text trimmed. *)
Theorem controls_pass_validation (acts : list (Z * Action)) :
  allOffered acts initialQuery →
  let q := handleAll acts initialQuery in
  1 ≤ s_page q ∧ 1 ≤ s_pageSize q ≤ 1000000 ∧
  ∃ st, QuerySchema (fetchParams q)
        = Some {| q_page := s_page q; q_pageSize := s_pageSize q;
                  q_search := Js.trim (s_search q); q_status := st;
                  q_sort := s_sort q |} ∧
        from_option statusStr EmptyString st = s_status q.
Proof.
  intros Hoff q.
  assert (Hwf : wellFormed q).
  { apply wellFormed_handleAll; [|done].
    repeat split; [simpl; lia|..].
    - unfold pageSizeOptions. simpl. rewrite elem_of_cons. auto.
    - unfold statusOptions. simpl. rewrite elem_of_cons. auto. }
  split; [apply Hwf|]. split; [apply pageSizeOptions_range, Hwf|].
  by apply QuerySchema_wellFormed.
Qed.

Lemma controls_pass_validation_witness :
  allOffered sampleSession initialQuery ∧
  QuerySchema (fetchParams (handleAll sampleSession initialQuery))
  = Some {| q_page := 1; q_pageSize := 100; q_search := "user";
            q_status := Some ACTIVE; q_sort := "name:asc" |}.
Proof.
  assert (H : allOffered sampleSession initialQuery).
  { simpl. repeat split.
    - refine (bool_decide_unpack _ _). vm_compute. exact I.
    - refine (bool_decide_unpack _ _). vm_compute. exact I.
    - refine (bool_decide_unpack _ _). vm_compute. exact I. }
  split; [exact H|].
  destruct (controls_pass_validation sampleSession H) as (_ & _ & st & E & Hst).
  rewrite E. f_equal.
  destruct st as [[]|]; vm_compute in Hst; try discriminate Hst.
  reflexivity.
Defined.

(** X16: a sort set in the grid reaches the server as it was set: for a
    column of the grid sorted ["asc"] or ["desc"], [onSortChanged] stores
    [colId:sort] and goes back to page 1, and [parseSort] reads that text as
    this column and this direction, never as the fallback.  When no column is
    sorted any more the handler returns early, and the parameters, the stored
    sort among them, stay as they were. *)
Theorem grid_sort_reaches_server (columnState : list ColumnState) (q : QueryState) :
  (Forall (λ c, col_sort c = None) columnState → onSortChanged columnState q = q) ∧
  ∀ c d,
    List.find (λ c, Js.truthy (col_sort c)) columnState = Some c →
    colId c ∈ columnFields → col_sort c = Some d → d = "asc" ∨ d = "desc" →
    onSortChanged columnState q
    = {| s_page := 1; s_pageSize := s_pageSize q;
         s_sort := colId c +:+ ":" +:+ d;
         s_search := s_search q; s_status := s_status q |} ∧
    parseSort (Some (s_sort (onSortChanged columnState q)))
    = {| field := colId c; dir := if String.eqb d "asc" then "ASC" else "DESC" |}.
Proof.
  split.
  - intros Hnone. unfold onSortChanged.
    destruct (List.find _ columnState) as [c|] eqn:Hfind; [|done].
    apply find_some in Hfind as [Hin Hsort].
    rewrite Forall_forall in Hnone.
    rewrite (Hnone c) in Hsort; [done|]. by apply list_elem_of_In.
  - intros c d Hfind Hcol Hd Hdir. unfold onSortChanged. rewrite Hfind, Hd.
    unfold columnFields in Hcol. rewrite !elem_of_cons, elem_of_nil in Hcol.
    destruct Hcol as [-> | [-> | [-> | [-> | [-> | []]]]]];
      destruct Hdir as [-> | ->]; split; reflexivity.
Qed.

Lemma grid_sort_reaches_server_witness :
  onSortChanged sampleColumnState initialQuery
  = {| s_page := 1; s_pageSize := 50; s_sort := "name:asc";
       s_search := EmptyString; s_status := EmptyString |} ∧
  parseSort (Some (s_sort (onSortChanged sampleColumnState initialQuery)))
  = {| field := "name"; dir := "ASC" |}.
Proof.
  refine (proj2 (grid_sort_reaches_server sampleColumnState initialQuery)
            {| colId := "name"; col_sort := Some "asc" |} "asc" eq_refl _ eq_refl _).
  - refine (bool_decide_unpack _ _). vm_compute. exact I.
  - left. reflexivity.
Defined.

Section Paging.

Variable like : string → string → bool.


End Paging.



(** X18: [totalPages] is the number of the last page that holds a row of the
    count on display (1 when there is none), and Next is disabled exactly
    from that page on.  The page select offers the multiples of 100 below
    [totalPages + 100] and nothing else: at least one, never a page from 1
    to 99, and a page beyond the last one unless [totalPages] is itself a
    multiple of 100. *)
Theorem page_select_options (totalCount pageSize : Z) :
  0 ≤ totalCount → 1 ≤ pageSize →
  let tp := totalPages totalCount pageSize in
  1 ≤ tp ∧ totalCount ≤ tp * pageSize ∧
  (1 < tp → (tp - 1) * pageSize < totalCount) ∧
  (∀ page, 1 ≤ page → (nextDisabled page pageSize totalCount = true ↔ tp ≤ page)) ∧
  (∀ p, p ∈ pageOptions tp ↔ ∃ k, 1 ≤ k ∧ p = 100 * k ∧ p < tp + 100) ∧
  100 ∈ pageOptions tp ∧
  (tp `mod` 100 ≠ 0 → ∃ p, p ∈ pageOptions tp ∧ tp < p).
Proof.
  intros Hcount Hps tp.
  destruct (totalPages_spec totalCount pageSize Hps) as (H1 & Hhi & Hlo).
  fold tp in H1, Hhi, Hlo.
  destruct (ceilDiv_spec tp 100 ltac:(lia)) as [Clo Chi].
  assert (Hopt : ∀ p, p ∈ pageOptions tp ↔ ∃ k, 1 ≤ k ∧ p = 100 * k ∧ p < tp + 100).
  { intros p. rewrite elem_of_pageOptions. split.
    - intros (k & Hk & ->). exists k. lia.
    - intros (k & Hk & -> & Hlt). exists k. split; [|lia].
      split; [done|]. apply Z.nlt_ge. intros Hgt. nia. }
  split; [done|]. split; [done|]. split; [done|]. split.
  { intros page Hpage. unfold nextDisabled.
    destruct (Z.geb_spec (page * pageSize) totalCount) as [Hge|Hlt]; split;
      intros H; try done.
    - apply Z.nlt_ge. intros Hlt.
      assert (1 < tp) by lia. specialize (Hlo ltac:(done)). nia.
    - nia. }
  split; [done|]. split.
  { apply Hopt. exists 1. lia. }
  intros Hmod. exists (ceilDiv tp 100 * 100). split.
  - apply elem_of_pageOptions. exists (ceilDiv tp 100). split; [|done].
    split; [|lia]. apply ceilDiv_pos; lia.
  - apply Z.le_neq. split; [done|]. intros Heq. apply Hmod.
    rewrite Heq. apply Z_mod_mult.
Qed.

Lemma page_select_options_witness :
  totalPages 500000 50 = 10000 ∧ totalPages 500001 50 = 10001 ∧
  last (pageOptions (totalPages 500001 50)) = Some 10100 ∧
  ∃ p, p ∈ pageOptions (totalPages 500001 50) ∧ totalPages 500001 50 < p.
Proof.
  split; [reflexivity|]. split; [reflexivity|]. split; [reflexivity|].
  destruct (page_select_options 500001 50 ltac:(lia) ltac:(lia))
    as (_ & _ & _ & _ & _ & _ & H).
  apply H. vm_compute. discriminate.
Defined.

(** ** The debounce timer *)

Section Debounce.

Implicit Types (st : Page) (evs : list PageEvent) (tr : list Effect).

Lemma pageRun_debounced evs st :
  (∀ t, timer st = Some t → closure t = params st) →
  debounced ((λ t, (due t - DEBOUNCE_MS, closure t)) <$> timer st)
    (snd (pageRun evs st)) ∧
  ∀ t, timer (fst (pageRun evs st)) = Some t →
       closure t = params (fst (pageRun evs st)).
Proof.
  revert st. induction evs as [|ev evs IH]; intros st Hinv.
  { split; [done|]. exact Hinv. }
  cbn [pageRun]. destruct (pageStep st ev) as [st1 out1] eqn:E1.
  specialize (IH st1).
  destruct (pageRun evs st1) as [st2 out2] eqn:E2.
  cbn [fst snd] in IH |- *.
  destruct ev as [now a|now|t o elapsed]; cbn [pageStep] in E1.
  - destruct (decide _) as [Heq|Hne]; injection E1 as <- <-.
    + apply IH. exact Hinv.
    + destruct IH as [Hdeb Hclosure].
      { cbn [timer params]. intros t [= <-]. reflexivity. }
      split; [|exact Hclosure].
      cbn [timer fmap option_fmap option_map useEffect due closure] in Hdeb.
      replace (now + DEBOUNCE_MS - DEBOUNCE_MS) with now in Hdeb by lia.
      exact Hdeb.
  - destruct (timer st) as [t|] eqn:Ht.
    + destruct (due t <=? now) eqn:Hdue.
      * destruct (fetchData_begin (client st)) as [c tk].
        injection E1 as <- <-.
        destruct IH as [Hdeb Hclosure]; [cbn [timer]; intros ? [=]|].
        split; [|exact Hclosure].
        cbn [timer fmap option_fmap option_map] in Hdeb.
        cbn [app fmap option_fmap option_map debounced].
        split; [reflexivity|]. split; [apply Z.leb_le in Hdue; lia|exact Hdeb].
      * injection E1 as <- <-. cbn [app]. rewrite <- Ht in Hinv |- *.
        apply IH. exact Hinv.
    + injection E1 as <- <-. cbn [app]. rewrite <- Ht in Hinv |- *.
      apply IH. exact Hinv.
  - injection E1 as <- <-. cbn [app]. apply IH. exact Hinv.
Qed.

Lemma debounced_split pending tr before now i q after :
  debounced pending tr →
  tr = before ++ Fetched now i q :: after →
  (before = [] ∧ ∃ tc, pending = Some (tc, q) ∧ tc + DEBOUNCE_MS ≤ now) ∨
  (∃ pre tc, before = pre ++ [TimerSet tc q] ∧ tc + DEBOUNCE_MS ≤ now).
Proof.
  revert pending before. induction tr as [|e tr IH]; intros pending before H Heq.
  - by destruct before.
  - destruct before as [|b before]; simpl in Heq; injection Heq as -> ->.
    + left. split; [done|]. simpl in H.
      destruct pending as [[tc q0]|]; [|done].
      destruct H as (-> & Hle & _). eauto.
    + right. destruct b as [tc0 q0|now0 i0 q0]; simpl in H.
      * destruct (IH _ _ H eq_refl) as [(-> & tc & [= <- <-] & Hle)
                                         | (pre & tc & -> & Hle)].
        -- exists [], tc0. done.
        -- exists (TimerSet tc0 q0 :: pre), tc. done.
      * destruct pending as [[tc1 q1]|]; [|done].
        destruct H as (_ & _ & H).
        destruct (IH _ _ H eq_refl) as [(-> & tc & [=] & Hle)
                                         | (pre & tc & -> & Hle)].
        exists (Fetched now0 i0 q0 :: pre), tc. done.
Qed.

End Debounce.

(** X19: the debounce.  In any session of user actions, timer phases and
    network settlements after the first render, every request is sent by the
    timer that was set last, for the parameters the page had when that timer
    was set, and not before 350 ms have passed since then; nothing lies
    between the two in the list of effects, so a timer that is set again
    before it fires sends nothing, and each timer sends at most one request.
    A timer that is still pending holds the parameters on the page. *)
Theorem debounce_quiet_period (t0 : Z) (evs : list PageEvent) :
  (∀ before now i q after,
     session t0 evs = before ++ Fetched now i q :: after →
     ∃ pre tc, before = pre ++ [TimerSet tc q] ∧ tc + 350 ≤ now) ∧
  ∀ t, timer (fst (pageRun evs (mount t0))) = Some t →
       closure t = params (fst (pageRun evs (mount t0))).
Proof.
  destruct (pageRun_debounced evs (mount t0)) as [Hdeb Hinv].
  { simpl. by intros t [= <-]. }
  split; [|done].
  intros before now i q after Heq.
  assert (H : debounced None (session t0 evs)).
  { unfold session. simpl. simpl in Hdeb.
    replace (t0 + DEBOUNCE_MS - DEBOUNCE_MS) with t0 in Hdeb by lia. done. }
  destruct (debounced_split None _ before now i q after H Heq)
    as [(_ & tc & [=] & _) | Hpre]; done.
Qed.

Lemma debounce_quiet_period_witness :
  let typed := {| s_page := 1; s_pageSize := 50; s_sort := "name:asc";
                  s_search := "al"; s_status := EmptyString |} in
  session 0 sampleTyping
  = [ TimerSet 0 initialQuery; Fetched 400 1 initialQuery;
      TimerSet 1000 (setSearch "a" initialQuery);
      TimerSet 1200 (setSearch "al" initialQuery);
      TimerSet 1500 typed; Fetched 1850 2 typed ] ∧
  ∃ pre tc,
    [ TimerSet 0 initialQuery; Fetched 400 1 initialQuery;
      TimerSet 1000 (setSearch "a" initialQuery);
      TimerSet 1200 (setSearch "al" initialQuery);
      TimerSet 1500 typed ] = pre ++ [TimerSet tc typed] ∧ tc + 350 ≤ 1850.
Proof.
  intros typed.
  assert (E : session 0 sampleTyping
              = [ TimerSet 0 initialQuery; Fetched 400 1 initialQuery;
                  TimerSet 1000 (setSearch "a" initialQuery);
                  TimerSet 1200 (setSearch "al" initialQuery);
                  TimerSet 1500 typed ] ++ Fetched 1850 2 typed :: []).
  { vm_compute. reflexivity. }
  split; [exact E|].
  exact (proj1 (debounce_quiet_period 0 sampleTyping) _ 1850 2 typed [] E).
Defined.
